(** * SoundAnalyse: a shallow embedding of [Phaser.SoundAnalyser]

    The development follows [src/SoundAnalyse/SoundAnalyse.js]: the
    constructor and the [fastFourierTransform] setter, the per-frame
    [update], the consumer list ([addBitmapSoundAnalyse] /
    [removeBitmapSoundAnalyse]), [getAvg], [getFakeData] and the two static
    resamplers [getAvgData] and [eachAvgData].

    Numbers.  A JavaScript number is modelled by [num]: an exact rational,
    the two infinities, or NaN.  Arithmetic is exact: the rounding of IEEE
    doubles and the sign of zero are outside the model.  Sample arrays hold
    integers (a [Uint8Array], or the integer array built by [getFakeData]),
    and a read past the end of an array yields [undefined], which the
    arithmetic of the source turns into NaN.

    The file also covers [linearCut] of [Phaser.BitmapDataSoundAnalyze], the
    LocalStorage plugin ([src/LocalStorage/LocalStorage.js]) over a model of
    [window.localStorage], and [configure] of the KineticScrolling plugin
    ([src/KineticScrolling/KineticScrolling.js]). *)

From Stdlib Require Import ZArith QArith Qround Qreduction Lia.
From stdpp Require Import base option list gmap strings sorting.

Local Open Scope Z_scope.

(** ** Numbers *)

Module Num.

Inductive num : Type :=
| Fin (q : Q)
| PInf
| NInf
| NaN.

(** Finite results are kept in lowest terms, so that two equal numbers are
    equal terms. *)
Definition fin (q : Q) : num := Fin (Qred q).

Definition of_Z (z : Z) : num := Fin (inject_Z z).

(** The sign of a finite number decides which infinity a product or a
    quotient yields. *)
Definition signed (q : Q) (pos neg : num) : num :=
  match (q ?= 0)%Q with
  | Eq => NaN
  | Gt => pos
  | Lt => neg
  end.

Definition add (a b : num) : num :=
  match a, b with
  | NaN, _ | _, NaN => NaN
  | Fin x, Fin y => fin (x + y)
  | PInf, NInf | NInf, PInf => NaN
  | PInf, _ | _, PInf => PInf
  | NInf, _ | _, NInf => NInf
  end.

Definition mul (a b : num) : num :=
  match a, b with
  | NaN, _ | _, NaN => NaN
  | Fin x, Fin y => fin (x * y)
  | Fin x, PInf | PInf, Fin x => signed x PInf NInf
  | Fin x, NInf | NInf, Fin x => signed x NInf PInf
  | PInf, PInf | NInf, NInf => PInf
  | PInf, NInf | NInf, PInf => NaN
  end.

(** [x / 0] is an infinity of the sign of [x], and [0 / 0] is NaN. *)
Definition div (a b : num) : num :=
  match a, b with
  | NaN, _ | _, NaN => NaN
  | Fin x, Fin y =>
      if Qeq_bool y 0 then signed x PInf NInf else fin (x / y)
  | Fin _, (PInf | NInf) => Fin 0
  | PInf, Fin y => if Qle_bool 0 y then PInf else NInf
  | NInf, Fin y => if Qle_bool 0 y then NInf else PInf
  | (PInf | NInf), (PInf | NInf) => NaN
  end.

(** [Math.floor] *)
Definition floor (a : num) : num :=
  match a with
  | Fin q => of_Z (Qfloor q)
  | other => other
  end.

(** [Math.round]: the nearest integer, a half going up. *)
Definition round (a : num) : num :=
  match a with
  | Fin q => of_Z (Qfloor (q + (1 # 2)))
  | other => other
  end.

(** [a < b]; every comparison with NaN is false. *)
Definition ltb (a b : num) : bool :=
  match a, b with
  | NaN, _ | _, NaN => false
  | Fin x, Fin y => negb (Qle_bool y x)
  | _, NInf => false
  | NInf, _ => true
  | PInf, _ => false
  | Fin _, PInf => true
  end.

Definition leb (a b : num) : bool :=
  match a, b with
  | NaN, _ | _, NaN => false
  | Fin x, Fin y => Qle_bool x y
  | NInf, _ => true
  | _, PInf => true
  | PInf, _ => false
  | Fin _, NInf => false
  end.

(** ToBoolean on a number: 0 and NaN are falsy. *)
Definition truthy (a : num) : bool :=
  match a with
  | Fin q => negb (Qeq_bool q 0)
  | PInf | NInf => true
  | NaN => false
  end.

(** An integer, as a predicate that computes. *)
Definition is_integer (a : num) : bool :=
  match a with
  | Fin q => Qeq_bool q (inject_Z (Qfloor q))
  | _ => false
  end.

End Num.

Export Num.

(** ** Values, the global object and completions *)

(** The JavaScript values the modelled code meets. *)
Inductive value : Type :=
| VUndef
| VNull
| VBool (b : bool)
| VNum (n : num)
| VStr (s : string)
| VArr (a : list Z).

(** ToBoolean *)
Definition to_boolean (v : value) : bool :=
  match v with
  | VUndef | VNull => false
  | VBool b => b
  | VNum n => truthy n
  | VStr s => negb (String.eqb s "")
  | VArr _ => true
  end.

(** The file is not in strict mode: an assignment to an identifier that no
    scope declares creates (or overwrites) a property of the global object,
    and reading such an identifier when the global object has no property of
    that name throws a ReferenceError. *)
Abbreviation globals := (gmap string value).

Inductive error : Type :=
| ReferenceError (name : string)
| TypeError.

(** How a call ends: it returns, it throws, or the model ran out of fuel
    (which the totality lemmas below exclude). *)
Inductive completion (A : Type) : Type :=
| Returns (a : A) (g : globals)
| Throws (e : error) (g : globals)
| OutOfFuel.
Arguments Returns {A} a g.
Arguments Throws {A} e g.
Arguments OutOfFuel {A}.

(** [dataArray[i]] in a numeric context. *)
Definition sample (dataArray : list Z) (i : Z) : num :=
  if i <? 0 then NaN
  else match dataArray !! Z.to_nat i with
       | Some d => of_Z d
       | None => NaN
       end.

(** [v || d] for an optional numeric argument. *)
Definition or_default (v : option num) (d : num) : num :=
  match v with
  | Some n => if truthy n then n else d
  | None => d
  end.

(** An omitted argument is [undefined], NaN in arithmetic. *)
Definition to_number (v : option num) : num :=
  match v with
  | Some n => n
  | None => NaN
  end.

(** ** The resamplers

    [getAvgData] and [eachAvgData] run the same loops; they differ in the
    statement that hands a bucket over ([res.push(size)] in the first,
    [callback.call(context, size, percent, x, i)] in the second) and in
    their first lines.  The loops are written once, over the handing-over
    statement [emit].  The dead local [barWidth] (computed from [this.width]
    and never read) is left out. *)

Section Loops.

Context {St : Type}.
(** [emit st size percent index last] *)
Variable emit : St -> num -> num -> Z -> Z -> St.

Variable dataArray : list Z.
Variable bufferLength : Z.
Variable maxMinValue outMaxValue : num.

(** [percent = value / maxMinValue; size = Math.floor(outMaxValue * percent, 10)] *)
Definition percent_of (value : num) : num := div value maxMinValue.
Definition size_of (value : num) : num :=
  floor (mul outMaxValue (percent_of value)).

(** The branch [bufferLength == resultSlots]:
    [for (var i = 0; i < bufferLength; i++) { ... }] *)
Fixpoint direct_loop (fuel : nat) (i : Z) (st : St) (g : globals)
  : option (St * globals) :=
  match fuel with
  | O => None
  | S fuel' =>
      if i <? bufferLength then
        let value := sample dataArray i in
        let percent := percent_of value in
        let size := size_of value in
        direct_loop fuel' (i + 1)
          (emit st size percent i i) (<["size" := VNum size]> g)
      else Some (st, g)
  end.

Variable destBars : Z.
Variable destPart : num.

(** [for (var k = 0; k < destPart; ++k, ++i) {
       if (i >= bufferLength) { break; }
       avg += dataArray[i]; }] *)
Fixpoint run_loop (fuel : nat) (k i : Z) (avg : num) : option (Z * num) :=
  match fuel with
  | O => None
  | S fuel' =>
      if ltb (of_Z k) destPart then
        if bufferLength <=? i then Some (i, avg)
        else run_loop fuel' (k + 1) (i + 1) (add avg (sample dataArray i))
      else Some (i, avg)
  end.

(** The statements after a run is summed:
    [avg = Math.floor(avg / destPart, 10); value = avg; ...] *)
Definition bucket_value (avg : num) : num := floor (div avg destPart).

(** [for (var x = 0; x < destBars; x++) { ... }]; the result carries the
    values of [x] and [i] at the exit. *)
Fixpoint bars_loop (fuel : nat) (x i : Z) (st : St) (g : globals)
  : option (Z * Z * St * globals) :=
  match fuel with
  | O => None
  | S fuel' =>
      if x <? destBars then
        match run_loop (S (Z.to_nat bufferLength)) 0 i (of_Z 0) with
        | None => None
        | Some (i', avg) =>
            let value := bucket_value avg in
            let percent := percent_of value in
            let size := size_of value in
            let g' := <["size" := VNum size]> g in
            let st' := emit st size percent x i' in
            if bufferLength <=? i' then Some (x, i', st', g')
            else bars_loop fuel' (x + 1) i' st' g'
        end
      else Some (x, i, st, g)
  end.

(** [for (; i < bufferLength; ++i) { avg += dataArray[i]; }] *)
Fixpoint rest_loop (fuel : nat) (i : Z) (avg : num) : option (Z * num) :=
  match fuel with
  | O => None
  | S fuel' =>
      if i <? bufferLength then
        rest_loop fuel' (i + 1) (add avg (sample dataArray i))
      else Some (i, avg)
  end.

(** [if (i < bufferLength) { x++; avg = 0; for ...; ... }] *)
Definition remainder (x i : Z) (st : St) (g : globals)
  : option (St * globals) :=
  if i <? bufferLength then
    let x := x + 1 in
    match rest_loop (S (Z.to_nat bufferLength)) i (of_Z 0) with
    | None => None
    | Some (i', avg) =>
        let value := bucket_value avg in
        let percent := percent_of value in
        let size := size_of value in
        Some (emit st size percent x i', <["size" := VNum size]> g)
    end
  else Some (st, g).

End Loops.

(** [Math.round(bufferLength / destBars)] *)
Definition nominal_run (bufferLength resultSlots : Z) : num :=
  round (div (of_Z bufferLength) (of_Z resultSlots)).

(** The body shared by both functions once the scale arguments are fixed:
    [if (bufferLength == resultSlots) { ... } else { ... }].  The fuel of
    each loop is one more than the number of passes its bound allows. *)
Definition resample {St : Type} (emit : St -> num -> num -> Z -> Z -> St)
    (dataArray : list Z) (bufferLength resultSlots : Z)
    (maxMinValue outMaxValue : num) (st : St) (g : globals)
  : option (St * globals) :=
  if bufferLength =? resultSlots then
    direct_loop emit dataArray bufferLength maxMinValue outMaxValue
      (S (Z.to_nat bufferLength)) 0 st g
  else
    let destBars := resultSlots in
    let destPart := nominal_run bufferLength destBars in
    match bars_loop emit dataArray bufferLength maxMinValue outMaxValue
            destBars destPart (S (Z.to_nat destBars)) 0 0 st g with
    | None => None
    | Some (x, i, st', g') =>
        remainder emit dataArray bufferLength maxMinValue outMaxValue
          destPart x i st' g'
    end.

(** The completion of a call whose loops ended with [r]. *)
Definition finish {A St : Type} (ret : St -> A)
    (r : option (St * globals)) : completion A :=
  match r with
  | Some (st, g) => Returns (ret st) g
  | None => OutOfFuel
  end.

(** [res.push(size)] *)
Definition push (res : list num) (size _percent : num) (_x _i : Z) : list num :=
  res ++ [size].

(** [Phaser.SoundAnalyser.getAvgData].  Its first statement is
    [normalizeValue = normalizeValue || 256;]: no scope declares
    [normalizeValue], so the read throws unless the global object has such a
    property, and the assignment writes that property.  [maxMinValue] and
    [outMaxValue] are used as passed. *)
Definition getAvgData (g : globals) (dataArray : list Z)
    (bufferLength resultSlots : Z) (maxMinValue outMaxValue : option num)
  : completion (list num) :=
  match g !! "normalizeValue" with
  | None => Throws (ReferenceError "normalizeValue") g
  | Some v =>
      let g := <["normalizeValue" :=
                   if to_boolean v then v else VNum (of_Z 256)]> g in
      finish (fun res => res)
        (resample push dataArray bufferLength resultSlots
           (to_number maxMinValue) (to_number outMaxValue) [] g)
  end.

(** One invocation of the callback of [eachAvgData]:
    [callback.call(context, size, percent, x, i)]. *)
Record call : Type := Call {
  call_size : num;
  call_percent : num;
  call_index : Z;
  call_last : Z
}.

(** [if (callback) { callback.call(...) }]: the calls are recorded in order.
    The callback is taken not to throw and not to write to [dataArray]. *)
Definition invoke (callback : bool) (calls : list call)
    (size percent : num) (x i : Z) : list call :=
  if callback then calls ++ [Call size percent x i] else calls.

(** [Phaser.SoundAnalyser.eachAvgData]; it returns its local [res], which
    stays empty.  The result pairs that array with the calls made. *)
Definition eachAvgData (g : globals) (dataArray : list Z)
    (bufferLength resultSlots : Z) (maxMinValue outMaxValue : option num)
    (callback : bool)
  : completion (list num * list call) :=
  let maxMinValue := or_default maxMinValue (of_Z 256) in
  let outMaxValue := or_default outMaxValue maxMinValue in
  finish (fun calls => ([], calls))
    (resample (invoke callback) dataArray bufferLength resultSlots
       maxMinValue outMaxValue [] g).

(** ** The analyser object *)

(** A Web Audio analyser node, as far as the analyser touches it: the
    properties it assigns.  The graph connections and the smoothing constant
    play no part below. *)
Record AnalyserNode : Type := Node {
  fftSize : Z;
  node_minDecibels : Z;
  node_maxDecibels : Z
}.

(** [node.frequencyBinCount]: half the FFT size. *)
Definition frequencyBinCount (n : AnalyserNode) : Z := fftSize n / 2.

(** What [this.context] offers: whether [createAnalyser] and
    [createChannelSplitter] exist. *)
Record AudioContext : Type := Context {
  createAnalyser : bool;
  createChannelSplitter : bool
}.

(** A visual consumer (a [BitmapDataSoundAnalyze]) is an object; [===]
    compares references, which natural numbers stand for. *)
Abbreviation consumer := nat.

(** The fields of a [Phaser.SoundAnalyser], with [isPlaying] and [context]
    of its base [Phaser.Sound].  Decibel bounds are integers here. *)
Record SoundAnalyser : Type := Analyser {
  context : option AudioContext;
  isPlaying : bool;
  allowFakeData : bool;
  analyserNode : option AnalyserNode;
  spliterNode : bool;
  splitAnalyseNodeLeft : option AnalyserNode;
  splitAnalyseNodeRight : option AnalyserNode;
  _dataArray : option (list Z);
  _dataTimeArray : option (list Z);
  _bufferLength : Z;
  bmpSoundAnalyze : list consumer;
  supportAnalyse : bool;
  _fastFourierTransform : Z;
  _minDecibels : Z;
  _maxDecibels : Z
}.

(** [new Uint8Array(n)] *)
Definition Uint8Array (n : Z) : list Z := replicate (Z.to_nat n) 0.

(** [new Phaser.SoundAnalyser(game, key, volume, loop, connect, allowFakeData)].
    The base constructor supplies [context]; the sound is not playing yet.
    The flag is set by [this.allowFakeData = true;//allowFakeData === true;]. *)
Definition new_SoundAnalyser (ctx : option AudioContext) (allowFakeData_arg : value)
  : SoundAnalyser :=
  let allow := true in
  let fft := 2048 in
  let minDb := -150 in
  let maxDb := 10 in
  let has_analyser :=
    match ctx with Some c => createAnalyser c | None => false end in
  if has_analyser then
    let node := Node fft minDb maxDb in
    let len := frequencyBinCount node in
    let split :=
      match ctx with Some c => createChannelSplitter c | None => false end in
    (* the side nodes keep the decibel range a new node comes with *)
    let side := if split then Some (Node fft (-100) (-30)) else None in
    Analyser ctx false allow (Some node) split side side
      (Some (Uint8Array len)) (Some (Uint8Array len)) len [] true fft minDb maxDb
  else if allow then
    Analyser ctx false allow None false None None
      (Some (Uint8Array fft)) (Some (Uint8Array fft)) fft [] false fft minDb maxDb
  else
    Analyser ctx false allow None false None None None None 0 [] false fft minDb maxDb.

(** [val % 2 === 0] on a number. *)
Definition even_number (n : num) : bool :=
  match n with
  | Fin q => Qeq_bool q (inject_Z (2 * Qfloor (q / 2)))
  | _ => false
  end.

Definition set_fft (this : SoundAnalyser) (val : Z) : SoundAnalyser :=
  Analyser (context this) (isPlaying this) (allowFakeData this)
    (if supportAnalyse this
     then match analyserNode this with
          | Some n => Some (Node val (node_minDecibels n) (node_maxDecibels n))
          | None => None
          end
     else analyserNode this)
    (spliterNode this) (splitAnalyseNodeLeft this) (splitAnalyseNodeRight this)
    (_dataArray this) (_dataTimeArray this) val (bmpSoundAnalyze this)
    (supportAnalyse this) val (_minDecibels this) (_maxDecibels this).

(** The setter of [fastFourierTransform]:
    [if (typeof val === "number" && val >= 32 && val <= 2048 && val % 2 === 0)].
    The result tells whether a warning was logged. *)
Definition set_fastFourierTransform (this : SoundAnalyser) (val : value)
  : SoundAnalyser * bool :=
  match val with
  | VNum n =>
      if leb (of_Z 32) n && leb n (of_Z 2048) && even_number n then
        match round n with
        | Fin q => (set_fft this (Qfloor q), false)
        | _ => (this, true)
        end
      else (this, true)
  | _ => (this, true)
  end.

(** The getter. *)
Definition fastFourierTransform (this : SoundAnalyser) : Z :=
  _fastFourierTransform this.

Definition set_bmps (this : SoundAnalyser) (bmps : list consumer) : SoundAnalyser :=
  Analyser (context this) (isPlaying this) (allowFakeData this)
    (analyserNode this) (spliterNode this) (splitAnalyseNodeLeft this)
    (splitAnalyseNodeRight this) (_dataArray this) (_dataTimeArray this)
    (_bufferLength this) bmps (supportAnalyse this)
    (_fastFourierTransform this) (_minDecibels this) (_maxDecibels this).

Definition set_arrays (this : SoundAnalyser) (data time : list Z) : SoundAnalyser :=
  Analyser (context this) (isPlaying this) (allowFakeData this)
    (analyserNode this) (spliterNode this) (splitAnalyseNodeLeft this)
    (splitAnalyseNodeRight this) (Some data) (Some time)
    (_bufferLength this) (bmpSoundAnalyze this) (supportAnalyse this)
    (_fastFourierTransform this) (_minDecibels this) (_maxDecibels this).

(** [addBitmapSoundAnalyse]: [this.bmpSoundAnalyze.push(bmp); return this;] *)
Definition addBitmapSoundAnalyse (this : SoundAnalyser) (bmp : consumer)
  : SoundAnalyser :=
  set_bmps this (bmpSoundAnalyze this ++ [bmp]).

(** [for (var k = this.bmpSoundAnalyze.length - 1; k >= 0; --k) {
       if (this.bmpSoundAnalyze[k] === bmp) {
         this.bmpSoundAnalyze.splice(k, 1); break; } }]
    with [n = k + 1] indices still to visit. *)
Fixpoint remove_loop (n : nat) (bmps : list consumer) (bmp : consumer)
  : list consumer :=
  match n with
  | O => bmps
  | S k =>
      if decide (bmps !! k = Some bmp) then delete k bmps
      else remove_loop k bmps bmp
  end.

(** [removeBitmapSoundAnalyse]; it returns [this]. *)
Definition removeBitmapSoundAnalyse (this : SoundAnalyser) (bmp : consumer)
  : SoundAnalyser :=
  set_bmps this
    (remove_loop (length (bmpSoundAnalyze this)) (bmpSoundAnalyze this) bmp).

(** [getAvg]: [for (var i = 0; i < length; i++) { values += dataArr[i]; }
    average = Math.floor(values / length, 10);] with [length] the length of
    the array itself. *)
Definition getAvg (dataArr : list Z) : num :=
  let length := Z.of_nat (length dataArr) in
  let values := foldl (fun values d => add values (of_Z d)) (of_Z 0) dataArr in
  floor (div values (of_Z length)).

(** One frame, the six arguments of [onAnalyseUpdate.dispatch] and of
    [updateAnalyse]. *)
Record frame : Type := Frame {
  frequencyData : value;
  timeData : value;
  bufferLength_of : Z;
  volume : value;
  averageLeft : value;
  averageRight : value
}.

Inductive event : Type :=
| Dispatch (f : frame)
| UpdateAnalyse (bmp : consumer) (f : frame).

(** What the three analyser nodes deliver at one tick. *)
Record readings : Type := Readings {
  mix_frequency : list Z;
  mix_time : list Z;
  left_frequency : list Z;
  right_frequency : list Z
}.

(** [node.getByteFrequencyData(array)]: the array keeps its length. *)
Definition read_into (array reading : list Z) : list Z :=
  take (length array) reading ++ drop (length reading) array.

Definition array_value (a : option (list Z)) : value :=
  match a with
  | Some l => VArr l
  | None => VNull
  end.

Section Random.

(** [this.game.rnd] is Phaser's generator, outside this repository: its
    state [rnd] and its [integerInRange(min, max)] are parameters. *)
Variable rnd : Type.
Variable integerInRange : rnd -> Z -> Z -> Z * rnd.

(** [for (var k = 0; k < this._bufferLength; ++k) {
       res.push(Math.abs(this.game.rnd.integerInRange(min, max))); }] *)
Fixpoint fake_loop (n : nat) (min max : Z) (s : rnd) (res : list Z)
  : list Z * rnd :=
  match n with
  | O => (res, s)
  | S n' =>
      let (v, s') := integerInRange s min max in
      fake_loop n' min max s' (res ++ [Z.abs v])
  end.

(** [getFakeData]: it declares no parameter and reads [this._bufferLength];
    [res.sort(function(a, b){return b-a})] sorts in descending order. *)
Definition getFakeData (this : SoundAnalyser) (s : rnd) : list Z * rnd :=
  let (res, s') :=
    fake_loop (Z.to_nat (_bufferLength this))
      (_minDecibels this) (_maxDecibels this) s [] in
  (merge_sort Z.ge res, s').

(** The bitmap loop of [update]. *)
Definition notify (bmps : list consumer) (f : frame) : list event :=
  Dispatch f :: map (fun bmp => UpdateAnalyse bmp f) bmps.

(** [update], after the call of the base method.  The consumers are taken
    not to throw and not to touch the analyser. *)
Definition update (this : SoundAnalyser) (s : rnd) (r : readings)
  : error + (SoundAnalyser * rnd * list event) :=
  if isPlaying this then
    let measured :=
      match analyserNode this with
      | Some _ =>
          match _dataArray this, _dataTimeArray this,
                splitAnalyseNodeLeft this, splitAnalyseNodeRight this with
          | Some data, Some time, Some nodeLeft, Some nodeRight =>
              let data := read_into data (mix_frequency r) in
              let time := read_into time (mix_time r) in
              let arrayLeft :=
                read_into (Uint8Array (frequencyBinCount nodeLeft)) (left_frequency r) in
              let averageLeft := getAvg arrayLeft in
              let arrayRight :=
                read_into (Uint8Array (frequencyBinCount nodeRight)) (right_frequency r) in
              let averageRight := getAvg arrayRight in
              let volMeter := getAvg data in
              inr (set_arrays this data time, s,
                   VNum volMeter, VNum averageLeft, VNum averageRight)
          | _, _, _, _ => inl TypeError
          end
      | None =>
          if allowFakeData this then
            let (fakeData, s') := getFakeData this s in
            let averageLeft := getAvg fakeData in
            let averageRight := fakeData in
            let volMeter := fakeData in
            inr (set_arrays this fakeData fakeData, s',
                 VArr volMeter, VNum averageLeft, VArr averageRight)
          else inr (this, s, VUndef, VUndef, VUndef)
      end in
    match measured with
    | inl e => inl e
    | inr (this', s', volMeter, averageLeft, averageRight) =>
        if bool_decide (is_Some (analyserNode this')) || allowFakeData this' then
          let f := Frame (array_value (_dataArray this'))
                     (array_value (_dataTimeArray this'))
                     (_bufferLength this') volMeter averageLeft averageRight in
          inr (this', s', notify (bmpSoundAnalyze this') f)
        else inr (this', s', [])
    end
  else inr (this, s, []).

End Random.

(** ** Notions used to state the properties *)

Definition sum_list (l : list Z) : Z := foldr Z.add 0 l.





(** Removal of the first occurrence, as the specification words it. *)
Fixpoint remove_first (bmp : consumer) (bmps : list consumer) : list consumer :=
  match bmps with
  | [] => []
  | b :: rest => if decide (b = bmp) then rest else b :: remove_first bmp rest
  end.

Definition power_of_two (z : Z) : Prop := exists k : nat, z = 2 ^ Z.of_nat k.







(** ** Concrete inputs *)

Definition ten_threes : list Z := [3; 3; 3; 3; 3; 3; 3; 3; 3; 3].

(** A global object on which some other script defined [normalizeValue]. *)
Definition page : globals := {[ "normalizeValue" := VNum (of_Z 256) ]}.

(** A generator that always returns the lower bound, one of the outcomes
    [integerInRange] allows. *)
Definition lowest (s : nat) (lo hi : Z) : Z * nat := (lo, S s).


(** The same with the default bounds and one consumer. *)
Definition silent : SoundAnalyser :=
  Analyser None true true None false None None None None 2 [5%nat] false 2
    (-150) 10.

(** An analyser on which the consumer [1] was added twice, around [2]. *)
Definition twice_registered : SoundAnalyser :=
  addBitmapSoundAnalyse
    (addBitmapSoundAnalyse
       (addBitmapSoundAnalyse (new_SoundAnalyser None VUndef) 1%nat) 2%nat)
    1%nat.

(** ** The resamplers when the array ends inside a run *)


(** Sample values a [Uint8Array] holds. *)
Definition bytes (l : list Z) : Prop := Forall (fun d => 0 <= d <= 255) l.

(** Two runs of the loops that differ in the handing-over statement and in
    the global object end alike. *)
Definition alike {A B : Type} (same : A -> B -> Prop)
    (r1 : option A) (r2 : option B) : Prop :=
  match r1, r2 with
  | Some a, Some b => same a b
  | None, None => True
  | _, _ => False
  end.

(** ** The colour interpolation of [BitmapDataSoundAnalyze] *)

(** Unary minus and subtraction of numbers. *)
Definition opp (a : num) : num :=
  match a with
  | Fin q => fin (- q)
  | PInf => NInf
  | NInf => PInf
  | NaN => NaN
  end.

Definition sub (a b : num) : num := add a (opp b).

(** [Phaser.BitmapDataSoundAnalyze.prototype.linearCut]:
    [var res = (inVal - inMin) / (inMax - inMin) * (outMax - outMin) + outMin;
     if (res < outMin) { res = outMin } else if (res > outMax) { res = outMax; }
     return Math.floor(res);] *)
Definition linearCut (inVal inMin inMax outMin outMax : num) : num :=
  let res :=
    add (mul (div (sub inVal inMin) (sub inMax inMin)) (sub outMax outMin))
      outMin in
  let res :=
    if ltb res outMin then outMin
    else if ltb outMax res then outMax
    else res in
  floor res.

(** ** States of the analyser *)

(** The analyser after its base class changed [isPlaying] (the [play],
    [stop] and [pause] of [Phaser.Sound], outside this repository). *)
Definition with_isPlaying (playing : bool) (this : SoundAnalyser) : SoundAnalyser :=
  Analyser (context this) playing (allowFakeData this)
    (analyserNode this) (spliterNode this) (splitAnalyseNodeLeft this)
    (splitAnalyseNodeRight this) (_dataArray this) (_dataTimeArray this)
    (_bufferLength this) (bmpSoundAnalyze this) (supportAnalyse this)
    (_fastFourierTransform this) (_minDecibels this) (_maxDecibels this).

(** Both sample arrays exist and hold [_bufferLength] entries. *)
Definition arrays_fit (this : SoundAnalyser) : Prop :=
  exists data time,
    _dataArray this = Some data /\ _dataTimeArray this = Some time
    /\ Z.of_nat (length data) = _bufferLength this
    /\ Z.of_nat (length time) = _bufferLength this.

(** A playing analyser on a context with analyser and channel splitter, with
    the consumers [7] and [9]. *)
Definition stereo_playing : SoundAnalyser :=
  with_isPlaying true
    (addBitmapSoundAnalyse
       (addBitmapSoundAnalyse
          (new_SoundAnalyser (Some (Context true true)) VUndef) 7%nat) 9%nat).

(** What its nodes deliver at some tick. *)
Definition tick : readings := Readings [12; 200; 31] [128; 127] [9; 8] [255].

(** * The LocalStorage plugin ([src/LocalStorage/LocalStorage.js]) *)

Module LocalStorage.

(** [window.localStorage]: its items in key order (every key once), and
    whether [setItem] throws (no quota left, private mode).  The items left
    keep their order when one is removed. *)
Record Storage : Type := {
  items : list (string * string);
  full : bool
}.

Definition keys (st : Storage) : list string := (items st).*1.

Fixpoint lookup_item (k : string) (l : list (string * string)) : option string :=
  match l with
  | [] => None
  | (k', v) :: rest => if decide (k' = k) then Some v else lookup_item k rest
  end.

Fixpoint store_item (k v : string) (l : list (string * string))
  : list (string * string) :=
  match l with
  | [] => [(k, v)]
  | (k', v') :: rest =>
      if decide (k' = k) then (k, v) :: rest else (k', v') :: store_item k v rest
  end.

(** [localStorage.getItem(k)]; [None] is [null]. *)
Definition getItem (st : Storage) (k : string) : option string :=
  lookup_item k (items st).

(** [localStorage.setItem(k, v)] when it does not throw. *)
Definition setItem (st : Storage) (k v : string) : Storage :=
  {| items := store_item k v (items st); full := full st |}.

(** [localStorage.removeItem(k)] *)
Definition removeItem (st : Storage) (k : string) : Storage :=
  {| items := filter (fun kv => kv.1 <> k) (items st); full := full st |}.

(** The global [localStorage]; [None] when [typeof localStorage] is not
    ['object']. *)
Abbreviation env := (option Storage).

Inductive failure : Type :=
| NoLocalStorage
| QuotaExceeded
| NotSerializable
| NullKey.

Inductive outcome (A : Type) : Type :=
| Done (a : A) (e : env)
| Failed (f : failure) (e : env).
Arguments Done {A} a e.
Arguments Failed {A} f e.

(** The plugin object. *)
Record Plugin : Type := {
  id : string;
  supported : bool
}.

(** [this.id + '.' + key] *)
Definition full_key (this : Plugin) (key : string) : string :=
  id this +:+ "." +:+ key.

(** [isSupported]: [typeof localStorage !== 'object'] gives [false];
    otherwise [setItem('localStorage', 1)] and [removeItem('localStorage')]
    are tried, an exception giving [false]. *)
Definition isSupported (e : env) : bool * env :=
  match e with
  | None => (false, None)
  | Some st =>
      if full st then (false, Some st)
      else (true, Some (removeItem (setItem st "localStorage" "1") "localStorage"))
  end.

(** The constructor: [this.id = ''; this.supported = this.isSupported();] *)
Definition new_Plugin (e : env) : Plugin * env :=
  let (sup, e') := isSupported e in
  ({| id := ""; supported := sup |}, e').

(** [setId]: [this.id = id || '';] for a string or no argument. *)
Definition setId (this : Plugin) (new_id : option string) : Plugin :=
  {| id := default "" new_id; supported := supported this |}.

(** What [key.indexOf(pattern) !== -1] tests. *)
Definition contains (pattern key : string) : bool :=
  bool_decide (is_Some (String.index 0 pattern key)).

(** [for (var i = localStorage.length - 1; i >= 0; i--) {
       var key = localStorage.key(i);
       if (key.indexOf(this.id + '.') !== -1) { localStorage.removeItem(key); } }]
    with [n = i + 1]; [localStorage.key(i)] is [null] past the end. *)
Fixpoint reset_loop (pattern : string) (n : nat) (st : Storage)
  : failure + Storage :=
  match n with
  | O => inr st
  | S i =>
      match keys st !! i with
      | None => inl NullKey
      | Some key =>
          reset_loop pattern i
            (if contains pattern key then removeItem st key else st)
      end
  end.

Inductive returned : Type :=
| ReturnedFalse
| ReturnedUndefined.

(** What [JSON.stringify(val)] yields: a text, [undefined], or a
    TypeError. *)
Inductive json_text : Type :=
| Text (s : string)
| Undefined
| Cyclic.

Section Json.

(** The values handed to the plugin, with [JSON.stringify] and
    [JSON.parse] on them. *)
Variable V : Type.

Variable stringify : V -> json_text.
(** [JSON.parse(str)]; [None] when it throws. *)
Variable parse : string -> option V.

(** [set]: [if (!this.supported) { return false; }
    localStorage.setItem(this.id + '.' + key, this.encode(value));] *)
Definition set (this : Plugin) (e : env) (key : string) (value : V)
  : outcome returned :=
  if negb (supported this) then Done ReturnedFalse e
  else
    match e with
    | None => Failed NoLocalStorage e
    | Some st =>
        match stringify value with
        | Cyclic => Failed NotSerializable e
        | encoded =>
            let text := match encoded with Text s => s | _ => "undefined" end in
            if full st then Failed QuotaExceeded e
            else Done ReturnedUndefined (Some (setItem st (full_key this key) text))
        end
    end.

(** What [get] returns: the decoded value, the raw text when decoding
    throws, or its [defaultValue] argument. *)
Inductive got : Type :=
| Decoded (v : V)
| Raw (s : string)
| DefaultValue.

Definition get (this : Plugin) (e : env) (key : string) : outcome got :=
  match e with
  | None => Failed NoLocalStorage e
  | Some st =>
      match getItem st (full_key this key) with
      | None => Done DefaultValue e
      | Some raw =>
          match parse raw with
          | Some v => Done (Decoded v) e
          | None => Done (Raw raw) e
          end
      end
  end.

End Json.

Arguments Decoded {V}.
Arguments Raw {V}.
Arguments DefaultValue {V}.

(** [has]: [localStorage.getItem(this.id + '.' + key) !== null] *)
Definition has (this : Plugin) (e : env) (key : string) : outcome bool :=
  match e with
  | None => Failed NoLocalStorage e
  | Some st => Done (bool_decide (is_Some (getItem st (full_key this key)))) e
  end.

(** [remove] *)
Definition remove (this : Plugin) (e : env) (key : string) : outcome unit :=
  match e with
  | None => Failed NoLocalStorage e
  | Some st => Done tt (Some (removeItem st (full_key this key)))
  end.

(** [reset] *)
Definition reset (this : Plugin) (e : env) : outcome unit :=
  match e with
  | None => Failed NoLocalStorage e
  | Some st =>
      match reset_loop (id this +:+ ".") (length (keys st)) st with
      | inl f => Failed f e
      | inr st' => Done tt (Some st')
      end
  end.

(** *** Concrete inputs *)

(** [JSON.stringify] and [JSON.parse] on [true], [false] and [undefined]
    ([None]). *)
Definition stringify_flag (v : option bool) : json_text :=
  match v with
  | Some true => Text "true"
  | Some false => Text "false"
  | None => Undefined
  end.

Definition parse_flag (s : string) : option (option bool) :=
  if decide (s = "true") then Some (Some true)
  else if decide (s = "false") then Some (Some false)
  else None.

(** A storage shared with other scripts. *)
Definition shelf : Storage :=
  {| items := [("game.score", "10"); ("other.game.x", "1");
               ("localStorage", "old"); ("gamer", "true")];
     full := false |}.

(** A storage whose [setItem] throws. *)
Definition locked : Storage := {| items := [("game.score", "10")]; full := true |}.

(** A supported plugin after [setId('game')]. *)
Definition saves : Plugin := setId {| id := ""; supported := true |} (Some "game").

End LocalStorage.

(** * The settings of the KineticScrolling plugin
    ([src/KineticScrolling/KineticScrolling.js]) *)

Module KineticScrolling.

(** [this.settings] as the constructor leaves it. *)
Definition default_settings : gmap string value :=
  {[ "kineticMovement" := VBool true;
     "timeConstantScroll" := VNum (of_Z 325);
     "horizontalScroll" := VBool true;
     "verticalScroll" := VBool false;
     "horizontalWheel" := VBool true;
     "verticalWheel" := VBool false;
     "deltaWheel" := VNum (of_Z 40) ]}.

(** [if (this.settings.hasOwnProperty(property)) {
       this.settings[property] = options[property]; }] *)
Definition configure_property (settings : gmap string value)
    (property : string * value) : gmap string value :=
  if bool_decide (is_Some (settings !! property.1))
  then <[property.1 := property.2]> settings
  else settings.

(** [configure(options)]: [options] is an object, given by its enumerable
    properties in enumeration order, or is left out. *)
Definition configure (settings : gmap string value)
    (options : option (list (string * value))) : gmap string value :=
  match options with
  | Some properties => foldl configure_property settings properties
  | None => settings
  end.

End KineticScrolling.

(** * Properties *)

(** ** Arithmetic of [num] on integers *)

Lemma Qred_inject_Z (z : Z) : Qred (inject_Z z) = inject_Z z.
Proof. apply Qcanon.Qred_identity. simpl. apply Z.gcd_1_r. Qed.


Lemma fin_inject_Z (q : Q) (z : Z) : (q == inject_Z z)%Q -> fin q = of_Z z.
Proof.
  intros H. unfold fin, of_Z. f_equal.
  rewrite (Qred_complete _ _ H). apply Qred_inject_Z.
Qed.

Lemma inject_Z_nonzero (b : Z) : b <> 0 -> ~ (inject_Z b == 0)%Q.
Proof. intros Hb H. unfold Qeq in H. simpl in H. lia. Qed.

Lemma Qeq_bool_inject_Z_0 (b : Z) : b <> 0 -> Qeq_bool (inject_Z b) 0 = false.
Proof.
  intros Hb. apply not_true_is_false. intros H. apply Qeq_bool_iff in H.
  by apply (inject_Z_nonzero b).
Qed.

Lemma add_of_Z (a b : Z) : add (of_Z a) (of_Z b) = of_Z (a + b).
Proof.
  unfold add, of_Z at 1 2. apply fin_inject_Z. by rewrite inject_Z_plus.
Qed.


Lemma leb_of_Z (a b : Z) : leb (of_Z a) (of_Z b) = (a <=? b).
Proof.
  unfold leb, of_Z. destruct (a <=? b) eqn:E.
  - apply Z.leb_le in E. apply Qle_bool_iff. by rewrite <- Zle_Qle.
  - apply not_true_is_false. intros H. apply Qle_bool_iff in H.
    rewrite <- Zle_Qle in H. apply Z.leb_gt in E. lia.
Qed.

(** [Math.floor(a / b)] on integers is the floor division of [Z]. *)
Lemma floor_div_of_Z (a b : Z) :
  b <> 0 -> floor (div (of_Z a) (of_Z b)) = of_Z (a / b).
Proof.
  intros Hb. unfold div, of_Z at 1 2. rewrite Qeq_bool_inject_Z_0 by done.
  unfold fin, floor. f_equal.
  rewrite (Qfloor_comp _ _ (Qred_correct _)). symmetry. apply Zdiv_Qdiv.
Qed.




Lemma round_of_Z (z : Z) : round (of_Z z) = of_Z z.
Proof.
  unfold round, of_Z. f_equal. f_equal.
  assert (H : (inject_Z z + (1 # 2) == inject_Z (2 * z + 1) / inject_Z 2)%Q).
  { rewrite inject_Z_plus, inject_Z_mult. field. }
  rewrite (Qfloor_comp _ _ H), <- Zdiv_Qdiv.
  symmetry. apply Z.div_unique with (r := 1); lia.
Qed.

Lemma even_number_of_Z (z : Z) : even_number (of_Z z) = Z.even z.
Proof.
  unfold even_number, of_Z.
  change (2 * Qfloor (inject_Z z / 2))
    with (2 * Qfloor (inject_Z z / inject_Z 2)).
  rewrite <- Zdiv_Qdiv.
  destruct (Z.even z) eqn:E.
  - apply Qeq_bool_iff. apply Z.even_spec in E. destruct E as [k ->].
    replace (2 * k / 2) with k by (rewrite Z.mul_comm, Z.div_mul; lia).
    reflexivity.
  - apply not_true_is_false. intros H. apply Qeq_bool_iff in H.
    apply (proj1 (inject_Z_injective _ _)) in H.
    assert (Z.even z = true) by (apply Z.even_spec; exists (z / 2); lia).
    congruence.
Qed.

Lemma is_integer_of_Z (z : Z) : is_integer (of_Z z) = true.
Proof.
  unfold is_integer, of_Z. rewrite Qfloor_Z. apply Qeq_bool_iff. reflexivity.
Qed.


(** ** The loops of the resamplers *)


Lemma sum_list_cons (d : Z) (l : list Z) : sum_list (d :: l) = d + sum_list l.
Proof. reflexivity. Qed.

Lemma sum_list_nil : sum_list [] = 0.
Proof. reflexivity. Qed.

Create Rewrite HintDb resample_loops.
#[local] Hint Rewrite sum_list_cons sum_list_nil : resample_loops.

(** Closes the arithmetic side goals the loop lemmas leave. *)
Ltac loop_arith :=
  autorewrite with resample_loops; repeat (f_equal; try lia); lia.

Section LoopFacts.

Context {St : Type} (emit : St -> num -> num -> Z -> Z -> St).
Variable data : list Z.
Variables inM outM : num.

#[local] Abbreviation len := (Z.of_nat (length data)).






End LoopFacts.





(** ** The resamplers *)




(** C4.  The first statement of [getAvgData] reads the undeclared
    identifier [normalizeValue]: on a global object without that property
    every call throws a ReferenceError, whatever the array and the scale
    arguments, and no sequence is returned. *)
Theorem getAvgData_throws (g : globals) (data : list Z)
    (bufferLength resultSlots : Z) (inMax outMax : option num) :
  g !! "normalizeValue" = None ->
  getAvgData g data bufferLength resultSlots inMax outMax
  = Throws (ReferenceError "normalizeValue") g.
Proof. intros Hg. unfold getAvgData. by rewrite Hg. Qed.

Lemma getAvgData_throws_witness :
  (∅ : globals) !! "normalizeValue" = None
  /\ getAvgData ∅ [10; 20] 2 2 (Some (of_Z 256)) (Some (of_Z 100))
     = Throws (ReferenceError "normalizeValue") ∅.
Proof.
  assert (H : (∅ : globals) !! "normalizeValue" = None) by reflexivity.
  split; [exact H|].
  exact (getAvgData_throws ∅ [10; 20] 2 2 (Some (of_Z 256)) (Some (of_Z 100)) H).
Defined.



(** C7.  [getAvgData] gives its scale arguments
    no default: where the read of [normalizeValue] succeeds, a call that
    omits them returns NaN for the sample 128 and the call with 256 and 256
    returns 128; on a global object without [normalizeValue] the call
    throws. *)
Theorem getAvgData_no_default :
  (exists g', getAvgData page [128] 1 1 None None = Returns [NaN] g')
  /\ (exists g', getAvgData page [128] 1 1 (Some (of_Z 256)) (Some (of_Z 256))
                 = Returns [of_Z 128] g')
  /\ getAvgData ∅ [128] 1 1 None None
     = Throws (ReferenceError "normalizeValue") ∅.
Proof.
  split; [|split].
  - eexists. vm_compute. reflexivity.
  - eexists. vm_compute. reflexivity.
  - reflexivity.
Qed.

(** X1 (the part of C7 the code keeps).  In [eachAvgData] an omitted
    [inputMax] acts as 256 and an omitted [outputMax] as the (defaulted)
    [inputMax]. *)
Theorem eachAvgData_defaults (g : globals) (data : list Z) (b d : Z)
    (inMax outMax : option num) (callback : bool) :
  eachAvgData g data b d None outMax callback
  = eachAvgData g data b d (Some (of_Z 256)) outMax callback
  /\ eachAvgData g data b d inMax None callback
     = eachAvgData g data b d inMax (Some (or_default inMax (of_Z 256)))
         callback.
Proof.
  split; [reflexivity|]. unfold eachAvgData. cbn [or_default].
  by destruct (truthy (or_default inMax (of_Z 256))).
Qed.

(** C9.  [size] is assigned without being declared: a call of
    [eachAvgData], even without a callback, leaves the global [size] behind
    on a global object that had none. *)
Theorem eachAvgData_writes_size :
  (∅ : globals) !! "size" = None
  /\ exists g',
       eachAvgData ∅ [7] 1 1 None None false = Returns ([], []) g'
       /\ g' !! "size" = Some (VNum (of_Z 7)).
Proof.
  split; [reflexivity|]. eexists. split; vm_compute; reflexivity.
Qed.

(** ** The resamplers always end *)

Section Totality.

Context {St : Type} (emit : St -> num -> num -> Z -> Z -> St).
Variable data : list Z.
Variable bl : Z.
Variables inM outM : num.

Lemma run_loop_total (dp : num) (fuel : nat) :
  forall k i avg,
    (Z.to_nat (bl - i) < fuel)%nat ->
    exists i' avg', run_loop data bl dp fuel k i avg = Some (i', avg') /\ i <= i'.
Proof.
  induction fuel as [|fuel IH]; intros k i avg Hfuel; [lia|]. cbn [run_loop].
  destruct (ltb (of_Z k) dp); [|eexists _, _; split; [done | lia]].
  destruct (bl <=? i) eqn:E; [eexists _, _; split; [done | lia]|].
  apply Z.leb_gt in E.
  destruct (IH (k + 1) (i + 1) (add avg (sample data i)))
    as (i' & avg' & H & Hle); [lia|].
  exists i', avg'. split; [done | lia].
Qed.

Lemma rest_loop_total (fuel : nat) :
  forall i avg,
    (Z.to_nat (bl - i) < fuel)%nat ->
    exists r, rest_loop data bl fuel i avg = Some r.
Proof.
  induction fuel as [|fuel IH]; intros i avg Hfuel; [lia|]. cbn [rest_loop].
  destruct (i <? bl) eqn:E; [|by eexists].
  apply Z.ltb_lt in E. apply IH. lia.
Qed.

Lemma direct_loop_total (fuel : nat) :
  forall i st g,
    (Z.to_nat (bl - i) < fuel)%nat ->
    exists r, direct_loop emit data bl inM outM fuel i st g = Some r.
Proof.
  induction fuel as [|fuel IH]; intros i st g Hfuel; [lia|]. cbn [direct_loop].
  destruct (i <? bl) eqn:E; [|by eexists].
  apply Z.ltb_lt in E. apply IH. lia.
Qed.

Lemma bars_loop_total (d : Z) (dp : num) (fuel : nat) :
  forall x i st g,
    0 <= i -> (Z.to_nat (d - x) < fuel)%nat ->
    exists x' i' st' g',
      bars_loop emit data bl inM outM d dp fuel x i st g
      = Some (x', i', st', g')
      /\ 0 <= i'.
Proof.
  induction fuel as [|fuel IH]; intros x i st g Hi Hfuel; [lia|].
  cbn [bars_loop].
  destruct (x <? d) eqn:E; [|eexists _, _, _, _; split; [done | lia]].
  apply Z.ltb_lt in E.
  destruct (run_loop_total dp (S (Z.to_nat bl)) 0 i (of_Z 0))
    as (i' & avg' & -> & Hle); [lia|].
  destruct (bl <=? i'); [eexists _, _, _, _; split; [done | lia]|].
  apply IH; lia.
Qed.

Lemma resample_total (d : Z) (st : St) (g : globals) :
  exists r, resample emit data bl d inM outM st g = Some r.
Proof.
  unfold resample. destruct (bl =? d).
  - apply direct_loop_total. lia.
  - destruct (bars_loop_total d (nominal_run bl d) (S (Z.to_nat d)) 0 0 st g)
      as (x' & i' & st' & g' & -> & Hi); [lia..|].
    unfold remainder. destruct (i' <? bl); [|by eexists].
    destruct (rest_loop_total (S (Z.to_nat bl)) i' (of_Z 0))
      as [[i2 avg] ->]; [lia|].
    by eexists.
Qed.

End Totality.

(** X3.  On every input both resamplers return or throw: the fuel the model
    gives its loops never runs out. *)
Theorem resamplers_total (g : globals) (data : list Z) (b d : Z)
    (inMax outMax : option num) (callback : bool) :
  getAvgData g data b d inMax outMax <> OutOfFuel
  /\ eachAvgData g data b d inMax outMax callback <> OutOfFuel.
Proof.
  split.
  - unfold getAvgData. destruct (g !! "normalizeValue"); [|done].
    match goal with |- context [resample ?e ?da ?bb ?dd ?i ?o ?s ?g1] =>
      destruct (resample_total e da bb i o dd s g1) as [[st' g'] ->] end.
    done.
  - unfold eachAvgData.
    match goal with |- context [resample ?e ?da ?bb ?dd ?i ?o ?s ?g1] =>
      destruct (resample_total e da bb i o dd s g1) as [[st' g'] ->] end.
    done.
Qed.

(** ** Averages *)

Lemma foldl_add_of_Z (l : list Z) :
  forall acc, foldl (fun values d => add values (of_Z d)) (of_Z acc) l
              = of_Z (acc + sum_list l).
Proof.
  induction l as [|d l IH]; intros acc; cbn [foldl].
  - loop_arith.
  - rewrite add_of_Z, IH. loop_arith.
Qed.

Lemma sum_list_bounds (lo hi : Z) (l : list Z) :
  Forall (fun d => lo <= d <= hi) l ->
  lo * Z.of_nat (length l) <= sum_list l <= hi * Z.of_nat (length l).
Proof.
  induction 1 as [|d l Hd _ IH]; autorewrite with resample_loops;
    simpl length; lia.
Qed.

(** C10.  On a non-empty array [getAvg] returns
    [Math.floor(sum / length)]: the floor division of the sum by the length,
    an integer, and one in [0, 255] when every element is. *)
Theorem getAvg_floor_mean (dataArr : list Z) :
  dataArr <> [] ->
  let n := Z.of_nat (length dataArr) in
  getAvg dataArr = floor (div (of_Z (sum_list dataArr)) (of_Z n))
  /\ getAvg dataArr = of_Z (sum_list dataArr / n)
  /\ is_integer (getAvg dataArr) = true
  /\ (Forall (fun d => 0 <= d <= 255) dataArr ->
      0 <= sum_list dataArr / n <= 255).
Proof.
  intros Hne n.
  assert (Hn : 0 < n) by (subst n; destruct dataArr; [done | simpl; lia]).
  assert (E : getAvg dataArr = floor (div (of_Z (sum_list dataArr)) (of_Z n))).
  { unfold getAvg. by rewrite (foldl_add_of_Z dataArr 0). }
  split; [done|]. rewrite E, floor_div_of_Z by lia.
  split; [done|]. split; [apply is_integer_of_Z|].
  intros Hb. apply (sum_list_bounds 0 255) in Hb. fold n in Hb. split.
  - apply Z.div_pos; lia.
  - apply Z.div_le_upper_bound; lia.
Qed.

Lemma getAvg_floor_mean_witness :
  [1; 2; 4] <> [] /\ getAvg [1; 2; 4] = of_Z 2.
Proof.
  assert (H : [1; 2; 4] <> ([] : list Z)) by discriminate.
  split; [exact H|].
  destruct (getAvg_floor_mean [1; 2; 4] H) as (_ & E & _).
  rewrite E. reflexivity.
Defined.

(** ** The consumer list *)

(** After [n] indices are visited from the end of the first [n] entries,
    either the consumer is not among them and nothing changed, or its last
    occurrence among them is gone. *)
Lemma remove_loop_spec (bmp : consumer) (bmps : list consumer) (n : nat) :
  (n <= length bmps)%nat ->
  ((bmp ∉ take n bmps) /\ remove_loop n bmps bmp = bmps)
  \/ (exists l1 l2, take n bmps = l1 ++ bmp :: l2 /\ (bmp ∉ l2)
                    /\ remove_loop n bmps bmp = l1 ++ l2 ++ drop n bmps).
Proof.
  induction n as [|k IH]; intros Hn.
  - left. split; [|done]. rewrite take_0. apply not_elem_of_nil.
  - destruct (lookup_lt_is_Some_2 bmps k) as [x Hx]; [lia|].
    cbn [remove_loop]. rewrite (take_S_r _ _ _ Hx).
    destruct (decide (bmps !! k = Some bmp)) as [Heq|Hne].
    + right. exists (take k bmps), []. rewrite Hx in Heq. injection Heq as ->.
      split; [done|]. split; [apply not_elem_of_nil|].
      by rewrite delete_take_drop.
    + assert (Hxb : x <> bmp) by (intros ->; by apply Hne).
      destruct IH as [[Hnot E]|(l1 & l2 & Et & Hnot & E)]; [lia|..].
      * left. split; [|done].
        rewrite elem_of_app, list_elem_of_singleton. intros [?|?]; by subst.
      * right. exists l1, (l2 ++ [x]). split; [by rewrite Et, <- app_assoc|].
        split.
        { rewrite elem_of_app, list_elem_of_singleton. intros [?|?]; by subst. }
        rewrite E, (drop_S _ _ _ Hx), <- !app_assoc. done.
Qed.

(** C6, as the code has it.  [removeBitmapSoundAnalyse] returns the analyser
    with nothing but its consumer list changed; the list is unchanged when
    the consumer is absent; otherwise exactly its last occurrence (the one
    added latest) is removed, everything else keeping its order. *)
Theorem removeBitmapSoundAnalyse_last (this : SoundAnalyser) (bmp : consumer) :
  let bmps := bmpSoundAnalyze this in
  let this' := removeBitmapSoundAnalyse this bmp in
  this' = set_bmps this (bmpSoundAnalyze this')
  /\ ((bmp ∉ bmps) -> bmpSoundAnalyze this' = bmps)
  /\ (bmp ∈ bmps ->
      exists l1 l2, bmps = l1 ++ bmp :: l2 /\ (bmp ∉ l2)
                    /\ bmpSoundAnalyze this' = l1 ++ l2).
Proof.
  intros bmps this'. split; [done|].
  destruct (remove_loop_spec bmp bmps (length bmps))
    as [[Hnot E]|(l1 & l2 & Et & Hnot & E)]; [done|..];
    rewrite firstn_all in *.
  - split; [done|]. intros Hin. done.
  - rewrite drop_all, app_nil_r in E. split.
    + intros Hnotin. exfalso. apply Hnotin. fold bmps. rewrite Et.
      apply elem_of_app. right. apply list_elem_of_here.
    + intros _. by exists l1, l2.
Qed.

(** C6 as stated fails: with the consumer 1 registered, then 2, then 1
    again, removing 1 leaves [1; 2]; removing the first occurrence would
    leave [2; 1]. *)
Lemma removal_takes_last_not_first :
  bmpSoundAnalyze twice_registered = [1; 2; 1]%nat
  /\ bmpSoundAnalyze (removeBitmapSoundAnalyse twice_registered 1%nat)
     = [1; 2]%nat
  /\ remove_first 1%nat (bmpSoundAnalyze twice_registered) = [2; 1]%nat
  /\ bmpSoundAnalyze (removeBitmapSoundAnalyse twice_registered 1%nat)
     <> remove_first 1%nat (bmpSoundAnalyze twice_registered).
Proof.
  split; [reflexivity|]. split; [reflexivity|]. split; [reflexivity|].
  discriminate.
Qed.

(** ** Synthetic data and the frame *)



Section RandomFacts.

Variable rnd : Type.
Variable integerInRange : rnd -> Z -> Z -> Z * rnd.

(** The contract of Phaser's [integerInRange]: an integer between [min] and
    [max], both included. *)
Hypothesis integerInRange_bounds :
  forall s lo hi, lo <= hi -> lo <= (integerInRange s lo hi).1 <= hi.



(** C3.  Without analyser node, with fake data allowed and the sound
    playing, [update] dispatches (and passes to every consumer) a frame
    whose frequency and time data are the synthetic array, whose
    [averageLeft] is the average of that array, and whose [volume] and
    [averageRight] are the synthetic array itself, not a scalar. *)
Theorem update_fake_frame (this : SoundAnalyser) (s : rnd) (r : readings) :
  isPlaying this = true ->
  analyserNode this = None ->
  allowFakeData this = true ->
  let fake := (getFakeData rnd integerInRange this s).1 in
  exists this' s',
    update rnd integerInRange this s r
    = inr (this', s',
           notify (bmpSoundAnalyze this)
             (Frame (VArr fake) (VArr fake) (_bufferLength this)
                (VArr fake) (VNum (getAvg fake)) (VArr fake))).
Proof.
  intros Hplay Hnode Hallow fake. subst fake. unfold update.
  rewrite Hplay, Hnode, Hallow.
  destruct (getFakeData rnd integerInRange this s) as [fake s'].
  cbn. rewrite Hnode, Hallow. cbn. eauto.
Qed.

(** [update] leaves the flag as it is. *)
Lemma update_allowFakeData (this this' : SoundAnalyser) (s s' : rnd)
    (r : readings) (events : list event) :
  update rnd integerInRange this s r = inr (this', s', events) ->
  allowFakeData this' = allowFakeData this.
Proof.
  unfold update. intros H.
  repeat (case_match; simplify_eq/=; try done).
Qed.

End RandomFacts.



Lemma update_fake_frame_witness :
  (isPlaying silent = true /\ analyserNode silent = None
   /\ allowFakeData silent = true)
  /\ exists this' s',
       update nat lowest silent 0%nat (Readings [] [] [] [])
       = inr (this', s',
              [Dispatch (Frame (VArr [150; 150]) (VArr [150; 150]) 2
                           (VArr [150; 150]) (VNum (of_Z 150))
                           (VArr [150; 150]));
               UpdateAnalyse 5%nat
                 (Frame (VArr [150; 150]) (VArr [150; 150]) 2
                    (VArr [150; 150]) (VNum (of_Z 150))
                    (VArr [150; 150]))]).
Proof.
  split; [by repeat split|].
  destruct (update_fake_frame nat lowest silent 0%nat (Readings [] [] [] [])
              eq_refl eq_refl eq_refl) as (this' & s' & E).
  exists this', s'. rewrite E. vm_compute. reflexivity.
Defined.

(** ** Configuration *)

Lemma not_power_of_two_34 : ~ power_of_two 34.
Proof.
  intros [k Hk]. destruct (le_lt_dec k 5) as [Hle|Hgt].
  - assert (2 ^ Z.of_nat k <= 2 ^ 5) by (apply Z.pow_le_mono_r; lia). lia.
  - assert (2 ^ 6 <= 2 ^ Z.of_nat k) by (apply Z.pow_le_mono_r; lia). lia.
Qed.

(** What the setter does with an integer: the test is on range and
    evenness. *)
Lemma setter_on_integer (this : SoundAnalyser) (z : Z) :
  set_fastFourierTransform this (VNum (of_Z z))
  = if (32 <=? z) && (z <=? 2048) && Z.even z
    then (set_fft this z, false) else (this, true).
Proof.
  unfold set_fastFourierTransform.
  rewrite !leb_of_Z, even_number_of_Z, round_of_Z.
  destruct ((32 <=? z) && (z <=? 2048) && Z.even z); [|done].
  unfold of_Z. by rewrite Qfloor_Z.
Qed.

(** C2.  The setter accepts 34, an even number that is no power of two:
    no warning is logged, and both the stored FFT size and the buffer
    length become 34. *)
Theorem fastFourierTransform_accepts_34 (this : SoundAnalyser) :
  let r := set_fastFourierTransform this (VNum (of_Z 34)) in
  r.2 = false
  /\ fastFourierTransform r.1 = 34
  /\ _bufferLength r.1 = 34
  /\ ~ power_of_two (fastFourierTransform r.1).
Proof.
  intros r. subst r. rewrite setter_on_integer.
  cbn. repeat split; apply not_power_of_two_34.
Qed.

(** X4.  The setter accepts an integer exactly when it is even and in
    [32, 2048]; it then stores it as FFT size and buffer length, and
    otherwise logs a warning and changes nothing. *)
Theorem fastFourierTransform_accepts_even (this : SoundAnalyser) (z : Z) :
  let r := set_fastFourierTransform this (VNum (of_Z z)) in
  if (32 <=? z) && (z <=? 2048) && Z.even z
  then r.2 = false /\ fastFourierTransform r.1 = z /\ _bufferLength r.1 = z
  else r = (this, true).
Proof.
  intros r. subst r. rewrite setter_on_integer.
  by destruct ((32 <=? z) && (z <=? 2048) && Z.even z).
Qed.

(** C8.  The constructor sets the flag to [true] whatever it is passed,
    [false] and [undefined] included. *)
Theorem allowFakeData_always_true (ctx : option AudioContext) (arg : value) :
  allowFakeData (new_SoundAnalyser ctx arg) = true.
Proof.
  unfold new_SoundAnalyser. destruct ctx as [[[] []]|]; reflexivity.
Qed.

(** X5 (the second half of C8).  No operation of the analyser changes the
    flag after construction. *)
Theorem allowFakeData_kept (this : SoundAnalyser) (val : value)
    (bmp : consumer) :
  allowFakeData (set_fastFourierTransform this val).1 = allowFakeData this
  /\ allowFakeData (addBitmapSoundAnalyse this bmp) = allowFakeData this
  /\ allowFakeData (removeBitmapSoundAnalyse this bmp) = allowFakeData this
  /\ forall (rnd : Type) (integerInRange : rnd -> Z -> Z -> Z * rnd)
       (s s' : rnd) (r : readings) (this' : SoundAnalyser) (events : list event),
       update rnd integerInRange this s r = inr (this', s', events) ->
       allowFakeData this' = allowFakeData this.
Proof.
  split; [|split; [done|split; [done|]]].
  - unfold set_fastFourierTransform. destruct val as [| | |n| |]; try done.
    destruct (leb (of_Z 32) n && leb n (of_Z 2048) && even_number n); [|done].
    by destruct (round n).
  - intros rnd integerInRange s s' r this' events.
    apply update_allowFakeData.
Qed.

(** ** The resamplers when the array ends inside a run *)

Section PartialRuns.

Context {St : Type} (emit : St -> num -> num -> Z -> Z -> St).
Variable data : list Z.
Variables inM outM : num.

#[local] Abbreviation len := (Z.of_nat (length data)).




End PartialRuns.












(** ** The two resamplers agree *)

Section Simulation.

Context {St1 St2 : Type}.
Variable emit1 : St1 -> num -> num -> Z -> Z -> St1.
Variable emit2 : St2 -> num -> num -> Z -> Z -> St2.
Variable R : St1 -> St2 -> Prop.
Hypothesis emit_related :
  forall s1 s2 size percent x i,
    R s1 s2 -> R (emit1 s1 size percent x i) (emit2 s2 size percent x i).

Variable data : list Z.
Variable bl : Z.
Variables inM outM : num.

Lemma direct_loop_alike (fuel : nat) :
  forall i s1 s2 g1 g2,
    R s1 s2 ->
    alike (fun a b => R a.1 b.1)
      (direct_loop emit1 data bl inM outM fuel i s1 g1)
      (direct_loop emit2 data bl inM outM fuel i s2 g2).
Proof.
  induction fuel as [|fuel IH]; intros i s1 s2 g1 g2 HR; cbn [direct_loop];
    [done|].
  destruct (i <? bl); [|done]. apply IH. by apply emit_related.
Qed.

Lemma bars_loop_alike (d : Z) (dp : num) (fuel : nat) :
  forall x i s1 s2 g1 g2,
    R s1 s2 ->
    alike (fun a b => a.1.1 = b.1.1 /\ R a.1.2 b.1.2)
      (bars_loop emit1 data bl inM outM d dp fuel x i s1 g1)
      (bars_loop emit2 data bl inM outM d dp fuel x i s2 g2).
Proof.
  induction fuel as [|fuel IH]; intros x i s1 s2 g1 g2 HR; cbn [bars_loop];
    [done|].
  destruct (x <? d); [|done].
  destruct (run_loop data bl dp (S (Z.to_nat bl)) 0 i (of_Z 0))
    as [[i' avg]|]; [|done].
  destruct (bl <=? i').
  - cbn. split; [done|]. by apply emit_related.
  - apply IH. by apply emit_related.
Qed.

Lemma resample_alike (d : Z) (s1 : St1) (s2 : St2) (g1 g2 : globals) :
  R s1 s2 ->
  alike (fun a b => R a.1 b.1)
    (resample emit1 data bl d inM outM s1 g1)
    (resample emit2 data bl d inM outM s2 g2).
Proof.
  intros HR. unfold resample. destruct (bl =? d).
  - by apply direct_loop_alike.
  - pose proof (bars_loop_alike d (nominal_run bl d) (S (Z.to_nat d)) 0 0
                  s1 s2 g1 g2 HR) as H.
    destruct (bars_loop emit1 _ _ _ _ _ _ _ _ _ s1 g1) as [[[[x1 i1] t1] h1]|],
      (bars_loop emit2 _ _ _ _ _ _ _ _ _ s2 g2) as [[[[x2 i2] t2] h2]|];
      try done.
    cbn in H. destruct H as [[= -> ->] Ht]. unfold remainder.
    destruct (i2 <? bl); [|done].
    destruct (rest_loop data bl (S (Z.to_nat bl)) i2 (of_Z 0)) as [[i' avg]|];
      [|done].
    cbn. by apply emit_related.
Qed.

End Simulation.

Lemma push_follows_invoke (calls : list call) (res : list num)
    (size percent : num) (x i : Z) :
  res = call_size <$> calls ->
  push res size percent x i = call_size <$> invoke true calls size percent x i.
Proof. intros ->. unfold invoke, push. by rewrite fmap_app. Qed.

(** X9.  With the same two truthy scale arguments, and on a page where a
    global [normalizeValue] exists, [getAvgData] returns exactly the sizes
    [eachAvgData] passes to its callback, in the order of the calls,
    whatever the array and the two lengths are. *)
Theorem getAvgData_matches_eachAvgData (g : globals) (v : value)
    (data : list Z) (b d : Z) (inMax outMax : num) :
  g !! "normalizeValue" = Some v ->
  truthy inMax = true -> truthy outMax = true ->
  exists calls g1 g2,
    eachAvgData g data b d (Some inMax) (Some outMax) true
    = Returns ([], calls) g1
    /\ getAvgData g data b d (Some inMax) (Some outMax)
       = Returns (call_size <$> calls) g2.
Proof.
  intros Hg Hi Ho. unfold eachAvgData, getAvgData. rewrite Hg.
  cbn [or_default to_number]. rewrite Hi, Ho.
  match goal with
  | |- context [resample push _ _ _ _ _ _ ?g2] =>
      pose proof (resample_alike (invoke true) push
                    (fun calls res => res = call_size <$> calls)
                    (fun s1 s2 size percent x i H =>
                       push_follows_invoke s1 s2 size percent x i H)
                    data b inMax outMax d [] [] g g2 eq_refl) as H;
      destruct (resample_total (invoke true) data b inMax outMax d [] g)
        as [[calls g1] E1];
      destruct (resample_total push data b inMax outMax d [] g2)
        as [[res g2'] E2]
  end.
  rewrite E1, E2 in H. cbn in H. subst res.
  rewrite E1, E2. by eexists _, _, _.
Qed.

Lemma getAvgData_matches_eachAvgData_witness :
  (page !! "normalizeValue" = Some (VNum (of_Z 256))
   /\ truthy (of_Z 256) = true /\ truthy (of_Z 100) = true)
  /\ exists calls g1 g2,
       eachAvgData page ten_threes 10 3 (Some (of_Z 256)) (Some (of_Z 100)) true
       = Returns ([], calls) g1
       /\ getAvgData page ten_threes 10 3 (Some (of_Z 256)) (Some (of_Z 100))
          = Returns (call_size <$> calls) g2.
Proof.
  assert (H1 : page !! "normalizeValue" = Some (VNum (of_Z 256)))
    by (vm_compute; reflexivity).
  assert (H2 : truthy (of_Z 256) = true) by reflexivity.
  assert (H3 : truthy (of_Z 100) = true) by reflexivity.
  split; [by repeat split|].
  exact (getAvgData_matches_eachAvgData page _ ten_threes 10 3 _ _ H1 H2 H3).
Defined.

(** ** [linearCut] *)

Lemma sub_of_Z (a b : Z) : sub (of_Z a) (of_Z b) = of_Z (a - b).
Proof.
  unfold sub, opp, of_Z at 2. unfold fin.
  replace (Qred (- inject_Z b)) with (inject_Z (- b)).
  - apply add_of_Z.
  - rewrite <- (Qred_inject_Z (- b)). apply Qred_complete.
    by rewrite inject_Z_opp.
Qed.

Lemma floor_of_Z (z : Z) : floor (of_Z z) = of_Z z.
Proof. unfold floor, of_Z. by rewrite Qfloor_Z. Qed.

(** The interpolation on integers, before the clamp: an exact rational. *)
Lemma interpolate_of_Z (x y c A : Z) :
  y <> 0 ->
  exists r : Q,
    add (mul (div (of_Z x) (of_Z y)) (of_Z c)) (of_Z A) = Fin r
    /\ (r == inject_Z (x * c + A * y) / inject_Z y)%Q.
Proof.
  intros Hy. unfold div, of_Z at 1 2. rewrite Qeq_bool_inject_Z_0 by done.
  unfold mul, add, fin, of_Z. eexists. split; [reflexivity|].
  rewrite !Qred_correct, inject_Z_plus, !inject_Z_mult.
  pose proof (inject_Z_nonzero y Hy). field. done.
Qed.

Lemma linearCut_closed_form (v a b A B : Z) :
  a <> b -> A <= B ->
  linearCut (of_Z v) (of_Z a) (of_Z b) (of_Z A) (of_Z B)
  = of_Z (Z.max A (Z.min B ((v - a) * (B - A) / (b - a) + A))).
Proof.
  intros Hab HAB. unfold linearCut. rewrite !sub_of_Z.
  destruct (interpolate_of_Z (v - a) (b - a) (B - A) A) as (r & -> & Hr);
    [lia|].
  set (F := (v - a) * (B - A) / (b - a) + A).
  assert (HF : Qfloor r = F).
  { rewrite (Qfloor_comp _ _ Hr), <- Zdiv_Qdiv. subst F.
    apply Z.div_add. lia. }
  pose proof (Qfloor_le r) as Hlo. pose proof (Qlt_floor r) as Hhi.
  rewrite HF in Hlo, Hhi.
  unfold ltb, of_Z at 1 2 3 4.
  destruct (Qle_bool (inject_Z A) r) eqn:EA; cbn [negb].
  - apply Qle_bool_iff in EA.
    assert (A <= F).
    { apply Z.lt_succ_r. rewrite Zlt_Qlt. eapply Qle_lt_trans; [exact EA|].
      by replace (Z.succ F) with (F + 1) by lia. }
    destruct (Qle_bool r (inject_Z B)) eqn:EB; cbn [negb].
    + apply Qle_bool_iff in EB.
      assert (F <= B).
      { rewrite Zle_Qle. eapply Qle_trans; [exact Hlo | exact EB]. }
      unfold floor. rewrite HF. f_equal. lia.
    + assert (B <= F).
      { destruct (Z_lt_le_dec F B) as [Hlt|]; [|done]. exfalso.
        assert (Hc : Qle_bool r (inject_Z B) = true); [|congruence].
        apply Qle_bool_iff. apply Qlt_le_weak.
        eapply Qlt_le_trans; [exact Hhi|]. rewrite <- Zle_Qle. lia. }
      fold (of_Z B). rewrite floor_of_Z. f_equal. lia.
  - assert (F < A).
    { destruct (Z_lt_le_dec F A) as [|Hle]; [done|]. exfalso.
      assert (Hc : Qle_bool (inject_Z A) r = true); [|congruence].
      apply Qle_bool_iff. eapply Qle_trans; [|exact Hlo]. by rewrite <- Zle_Qle. }
    fold (of_Z A). rewrite floor_of_Z. f_equal. lia.
Qed.

(** X10.  On integers with [inMin <> inMax] and [outMin <= outMax],
    [linearCut] returns an integer in [[outMin, outMax]]; it maps [inMin] to
    [outMin] and [inMax] to [outMax]. *)
Theorem linearCut_within_range (v a b A B : Z) :
  a <> b -> A <= B ->
  (exists z, linearCut (of_Z v) (of_Z a) (of_Z b) (of_Z A) (of_Z B) = of_Z z
             /\ A <= z <= B)
  /\ linearCut (of_Z a) (of_Z a) (of_Z b) (of_Z A) (of_Z B) = of_Z A
  /\ linearCut (of_Z b) (of_Z a) (of_Z b) (of_Z A) (of_Z B) = of_Z B.
Proof.
  intros Hab HAB. rewrite !linearCut_closed_form by done. split; [|split].
  - eexists. split; [reflexivity | lia].
  - f_equal. rewrite Z.sub_diag, Z.mul_0_l, Z.div_0_l by lia. lia.
  - f_equal. rewrite Z.mul_comm, Z.div_mul by lia. lia.
Qed.

Lemma linearCut_within_range_witness :
  (0 <> 255 /\ 19 <= 242)
  /\ linearCut (of_Z 128) (of_Z 0) (of_Z 255) (of_Z 19) (of_Z 242) = of_Z 130.
Proof.
  assert (H1 : 0 <> 255) by lia. assert (H2 : 19 <= 242) by lia.
  split; [by split|].
  destruct (linearCut_within_range 128 0 255 19 242 H1 H2) as [(z & E & _) _].
  rewrite E. revert E. vm_compute. by intros [= <-].
Defined.

(** X11.  With [inMin < inMax] and [outMin <= outMax], [linearCut] is
    monotone in its first argument. *)
Theorem linearCut_monotone (v1 v2 a b A B : Z) :
  a < b -> A <= B -> v1 <= v2 ->
  exists z1 z2,
    linearCut (of_Z v1) (of_Z a) (of_Z b) (of_Z A) (of_Z B) = of_Z z1
    /\ linearCut (of_Z v2) (of_Z a) (of_Z b) (of_Z A) (of_Z B) = of_Z z2
    /\ z1 <= z2.
Proof.
  intros Hab HAB Hv. rewrite !linearCut_closed_form by lia.
  eexists _, _. split; [reflexivity|]. split; [reflexivity|].
  assert ((v1 - a) * (B - A) / (b - a) <= (v2 - a) * (B - A) / (b - a))
    by (apply Z.div_le_mono; nia).
  lia.
Qed.

Lemma linearCut_monotone_witness :
  (0 < 255 /\ 0 <= 255 /\ 10 <= 200)
  /\ exists z1 z2,
       linearCut (of_Z 10) (of_Z 0) (of_Z 255) (of_Z 0) (of_Z 255) = of_Z z1
       /\ linearCut (of_Z 200) (of_Z 0) (of_Z 255) (of_Z 0) (of_Z 255) = of_Z z2
       /\ z1 <= z2.
Proof.
  split; [lia|].
  exact (linearCut_monotone 10 200 0 255 0 255 ltac:(lia) ltac:(lia) ltac:(lia)).
Defined.

Lemma Qcompare_inject_Z_0 (x : Z) : (inject_Z x ?= 0)%Q = (x ?= 0).
Proof. unfold Qcompare. simpl. by rewrite Z.mul_1_r. Qed.

Lemma div_of_Z_zero (x : Z) :
  div (of_Z x) (of_Z 0)
  = if x <? 0 then NInf else if 0 <? x then PInf else NaN.
Proof.
  unfold div, of_Z, signed. change (Qeq_bool (inject_Z 0) 0) with true.
  cbn [negb]. rewrite Qcompare_inject_Z_0.
  destruct (Z.compare_spec x 0) as [->|Hlt|Hgt].
  - reflexivity.
  - by replace (x <? 0) with true by (symmetry; apply Z.ltb_lt; lia).
  - replace (x <? 0) with false by (symmetry; apply Z.ltb_ge; lia).
    by replace (0 <? x) with true by (symmetry; apply Z.ltb_lt; lia).
Qed.

Lemma mul_infinity_positive (c : Z) :
  0 < c -> mul PInf (of_Z c) = PInf /\ mul NInf (of_Z c) = NInf.
Proof.
  intros Hc. unfold mul, of_Z, signed. rewrite Qcompare_inject_Z_0.
  by replace (c ?= 0) with Gt by (symmetry; apply Z.compare_gt_iff; lia).
Qed.

(** X12.  With [inMin = inMax] the division is by zero: below [inMin] the
    result is [outMin], above it [outMax], and at [inMin] itself it is NaN,
    which is outside [[outMin, outMax]]. *)
Theorem linearCut_degenerate (v a A B : Z) :
  A < B ->
  linearCut (of_Z v) (of_Z a) (of_Z a) (of_Z A) (of_Z B)
  = if v <? a then of_Z A else if a <? v then of_Z B else NaN.
Proof.
  intros HAB. unfold linearCut. rewrite !sub_of_Z, Z.sub_diag, div_of_Z_zero.
  destruct (mul_infinity_positive (B - A)) as [Hp Hn]; [lia|].
  replace (v - a <? 0) with (v <? a)
    by (destruct (Z.ltb_spec (v - a) 0), (Z.ltb_spec v a); reflexivity || lia).
  replace (0 <? v - a) with (a <? v)
    by (destruct (Z.ltb_spec 0 (v - a)), (Z.ltb_spec a v); reflexivity || lia).
  destruct (v <? a); [rewrite Hn; cbn [add ltb of_Z]; apply floor_of_Z|].
  destruct (a <? v); [rewrite Hp; cbn [add ltb of_Z]; apply floor_of_Z|].
  reflexivity.
Qed.

Lemma linearCut_degenerate_witness :
  0 < 255
  /\ linearCut (of_Z 128) (of_Z 5) (of_Z 5) (of_Z 0) (of_Z 255) = of_Z 255
  /\ linearCut (of_Z 5) (of_Z 5) (of_Z 5) (of_Z 0) (of_Z 255) = NaN.
Proof.
  split; [lia|]. split.
  - exact (linearCut_degenerate 128 5 0 255 ltac:(lia)).
  - exact (linearCut_degenerate 5 5 0 255 ltac:(lia)).
Defined.

(** ** The consumer list and [update] *)

Lemma set_bmps_same (this : SoundAnalyser) :
  set_bmps this (bmpSoundAnalyze this) = this.
Proof. by destruct this. Qed.

Lemma remove_loop_appended (bmps : list consumer) (bmp : consumer) :
  remove_loop (length (bmps ++ [bmp])) (bmps ++ [bmp]) bmp = bmps.
Proof.
  rewrite length_app, Nat.add_comm. cbn [length Nat.add remove_loop].
  rewrite decide_True by (by rewrite list_lookup_middle).
  rewrite delete_take_drop, take_app_length, drop_ge by (rewrite length_app; simpl; lia).
  apply app_nil_r.
Qed.

(** X13.  Removing a consumer right after adding it gives the analyser back
    as it was, whether the consumer was registered before or not. *)
Theorem add_then_remove (this : SoundAnalyser) (bmp : consumer) :
  removeBitmapSoundAnalyse (addBitmapSoundAnalyse this bmp) bmp = this.
Proof.
  unfold removeBitmapSoundAnalyse, addBitmapSoundAnalyse.
  cbn [bmpSoundAnalyze set_bmps]. rewrite remove_loop_appended.
  by destruct this.
Qed.

Section UpdateFacts.

Variable rnd : Type.
Variable integerInRange : rnd -> Z -> Z -> Z * rnd.

(** What [update] emits: nothing, or one dispatch followed by one call per
    registered consumer, in registration order, all with the same frame. *)
Lemma update_events (this this' : SoundAnalyser) (s s' : rnd) (r : readings)
    (events : list event) :
  update rnd integerInRange this s r = inr (this', s', events) ->
  bmpSoundAnalyze this' = bmpSoundAnalyze this
  /\ ((events = [] /\ this' = this /\ s' = s
       /\ (isPlaying this = false
           \/ (analyserNode this = None /\ allowFakeData this = false)))
      \/ (isPlaying this = true
          /\ exists f, events = notify (bmpSoundAnalyze this) f)).
Proof.
  unfold update. intros H.
  destruct (isPlaying this) eqn:Ep; [|simplify_eq/=; auto 10].
  destruct (analyserNode this) as [node|] eqn:En.
  - destruct (_dataArray this), (_dataTimeArray this),
      (splitAnalyseNodeLeft this), (splitAnalyseNodeRight this);
      simplify_eq/=.
    rewrite En in H. simplify_eq/=. split; [done|]. right. eauto.
  - destruct (allowFakeData this) eqn:Ea.
    + destruct (getFakeData rnd integerInRange this s) as [fake s1].
      simplify_eq/=. rewrite Ea, orb_true_r in H. simplify_eq/=.
      split; [done|]. right. eauto.
    + simplify_eq/=. rewrite Ea, En in H. simplify_eq/=.
      split; [done|]. left. auto 10.
Qed.

(** X14.  A tick of [update] that returns never changes the consumer list;
    it emits either nothing, or one dispatch of [onAnalyseUpdate] followed by
    one [updateAnalyse] per registered consumer, in registration order and
    all with the frame that was dispatched; when the sound is not playing it
    emits nothing and changes nothing. *)
Theorem update_notifies_in_order (this this' : SoundAnalyser) (s s' : rnd)
    (r : readings) (events : list event) :
  update rnd integerInRange this s r = inr (this', s', events) ->
  bmpSoundAnalyze this' = bmpSoundAnalyze this
  /\ (events = []
      \/ exists f,
           events = Dispatch f
                    :: ((fun bmp => UpdateAnalyse bmp f) <$> bmpSoundAnalyze this))
  /\ (isPlaying this = false -> events = [] /\ this' = this /\ s' = s).
Proof.
  intros H. destruct (update_events _ _ _ _ _ _ H) as [Hb Hev].
  split; [done|]. split.
  - destruct Hev as [(-> & _)|(_ & f & ->)]; [by left | right; by exists f].
  - intros Hp. destruct Hev as [(-> & -> & -> & _)|(Hp' & _)]; [done | congruence].
Qed.

(** X15.  When every consumer is registered once, a removed consumer gets
    no [updateAnalyse] at the next tick. *)
Theorem removed_consumer_not_notified (this this' : SoundAnalyser)
    (bmp : consumer) (s s' : rnd) (r : readings) (events : list event) :
  NoDup (bmpSoundAnalyze this) ->
  update rnd integerInRange (removeBitmapSoundAnalyse this bmp) s r
  = inr (this', s', events) ->
  forall f, UpdateAnalyse bmp f ∉ events.
Proof.
  intros Hnd H f Hin.
  destruct (update_events _ _ _ _ _ _ H) as [_ Hev].
  assert (Hgone : bmp ∉ bmpSoundAnalyze (removeBitmapSoundAnalyse this bmp)).
  { cbn [removeBitmapSoundAnalyse set_bmps bmpSoundAnalyze].
    destruct (remove_loop_spec bmp (bmpSoundAnalyze this)
                (length (bmpSoundAnalyze this)))
      as [[Hnot ->]|(l1 & l2 & Et & Hnot & ->)]; [done|by rewrite firstn_all in Hnot|].
    rewrite firstn_all in Et. rewrite drop_all, app_nil_r.
    rewrite Et in Hnd. apply NoDup_app in Hnd as (_ & Hdis & _).
    rewrite elem_of_app. intros [Hl|Hr]; [|done].
    apply (Hdis _ Hl). apply list_elem_of_here. }
  destruct Hev as [(-> & _)|(_ & f' & ->)].
  - by apply not_elem_of_nil in Hin.
  - unfold notify in Hin. apply elem_of_cons in Hin as [?|Hin]; [done|].
    apply list_elem_of_fmap in Hin as (c & Ec & Hc). by simplify_eq.
Qed.

End UpdateFacts.

Lemma length_Uint8Array (n : Z) : Z.of_nat (length (Uint8Array n)) = Z.max 0 n.
Proof. unfold Uint8Array. rewrite length_replicate. lia. Qed.

Lemma bytes_Uint8Array (n : Z) : bytes (Uint8Array n).
Proof. apply Forall_replicate. lia. Qed.

Lemma length_read_into (array reading : list Z) :
  length (read_into array reading) = length array.
Proof.
  unfold read_into. rewrite length_app, length_take, length_drop. lia.
Qed.

Lemma bytes_read_into (array reading : list Z) :
  bytes array -> bytes reading -> bytes (read_into array reading).
Proof.
  intros Ha Hr. apply Forall_app. split.
  - by apply Forall_take.
  - by apply Forall_drop.
Qed.

(** The average of a non-empty array of bytes is a byte. *)
Lemma getAvg_bytes (l : list Z) :
  l <> [] -> bytes l -> exists z, getAvg l = of_Z z /\ 0 <= z <= 255.
Proof.
  intros Hne Hb. unfold getAvg. rewrite (foldl_add_of_Z l 0).
  assert (0 < Z.of_nat (length l)) by (destruct l; [done | simpl; lia]).
  rewrite floor_div_of_Z by lia. eexists. split; [reflexivity|].
  apply (sum_list_bounds 0 255) in Hb. split.
  - apply Z.div_pos; lia.
  - apply Z.div_le_upper_bound; lia.
Qed.

Lemma fake_loop_length {rnd : Type} (gen : rnd -> Z -> Z -> Z * rnd)
    (n : nat) (lo hi : Z) :
  forall s res, length (fake_loop rnd gen n lo hi s res).1 = (length res + n)%nat.
Proof.
  induction n as [|n IH]; intros s res; cbn [fake_loop].
  - simpl. lia.
  - destruct (gen s lo hi) as [v s1]. rewrite IH, length_app. simpl. lia.
Qed.

Lemma getFakeData_length {rnd : Type} (gen : rnd -> Z -> Z -> Z * rnd)
    (this : SoundAnalyser) (s : rnd) :
  length (getFakeData rnd gen this s).1 = Z.to_nat (_bufferLength this).
Proof.
  unfold getFakeData.
  pose proof (fake_loop_length gen (Z.to_nat (_bufferLength this))
                (_minDecibels this) (_maxDecibels this) s []) as H.
  destruct (fake_loop rnd gen _ _ _ s []) as [res s1]. cbn [fst] in *.
  by rewrite merge_sort_Permutation.
Qed.

Section FrameFacts.

Variable rnd : Type.
Variable integerInRange : rnd -> Z -> Z -> Z * rnd.

(** X16.  The constructor leaves both sample arrays with [_bufferLength]
    entries, and a tick of [update] that returns keeps them so; in fake-data
    mode it makes them so whatever they were. *)
Theorem arrays_fit_kept (ctx : option AudioContext) (arg : value) :
  arrays_fit (new_SoundAnalyser ctx arg)
  /\ forall (this this' : SoundAnalyser) (s s' : rnd) (r : readings)
       (events : list event),
       update rnd integerInRange this s r = inr (this', s', events) ->
       0 <= _bufferLength this ->
       arrays_fit this \/ (isPlaying this = true /\ analyserNode this = None
                           /\ allowFakeData this = true) ->
       arrays_fit this'.
Proof.
  split.
  - unfold new_SoundAnalyser, arrays_fit.
    destruct ctx as [[[] sp]|]; cbn; eexists _, _;
      (split; [reflexivity|]); (split; [reflexivity|]);
      by rewrite length_Uint8Array.
  - intros this this' s s' r events H Hlen Hfit. unfold update in H.
    destruct (isPlaying this) eqn:Ep;
      [|simplify_eq/=; by destruct Hfit as [|(? & _)]].
    destruct (analyserNode this) as [node|] eqn:En.
    + destruct Hfit as [(data & time & Ed & Et & Ld & Lt)|(_ & ? & _)]; [|done].
      rewrite Ed, Et in H.
      destruct (splitAnalyseNodeLeft this), (splitAnalyseNodeRight this);
        simplify_eq/=.
      rewrite En in H. simplify_eq/=.
      eexists _, _. cbn. split; [reflexivity|]. split; [reflexivity|].
      by rewrite !length_read_into.
    + destruct (allowFakeData this) eqn:Ea.
      * pose proof (getFakeData_length integerInRange this s) as Hl.
        destruct (getFakeData rnd integerInRange this s) as [fake s1].
        simplify_eq/=. rewrite Ea, orb_true_r in H. simplify_eq/=.
        eexists _, _. cbn. split; [reflexivity|]. split; [reflexivity|]. lia.
      * simplify_eq/=. rewrite Ea, En in H. simplify_eq/=.
        by destruct Hfit as [|(_ & _ & ?)].
Qed.

(** X17.  In analyser mode, with both side nodes present and bytes
    delivered by the nodes, a tick returns, leaves the generator state
    alone, and its frame carries the two arrays as read and three numbers
    for volume, left and right average, each an integer in [[0, 255]]. *)
Theorem update_analyser_frame (this : SoundAnalyser) (s : rnd) (r : readings)
    (node nodeLeft nodeRight : AnalyserNode) (data time : list Z) :
  isPlaying this = true ->
  analyserNode this = Some node ->
  splitAnalyseNodeLeft this = Some nodeLeft ->
  splitAnalyseNodeRight this = Some nodeRight ->
  _dataArray this = Some data -> _dataTimeArray this = Some time ->
  data <> [] -> 2 <= fftSize nodeLeft -> 2 <= fftSize nodeRight ->
  bytes data -> bytes (mix_frequency r) ->
  bytes (left_frequency r) -> bytes (right_frequency r) ->
  exists this' f vol avgL avgR,
    update rnd integerInRange this s r
    = inr (this', s, notify (bmpSoundAnalyze this) f)
    /\ frequencyData f = VArr (read_into data (mix_frequency r))
    /\ timeData f = VArr (read_into time (mix_time r))
    /\ volume f = VNum (of_Z vol) /\ 0 <= vol <= 255
    /\ averageLeft f = VNum (of_Z avgL) /\ 0 <= avgL <= 255
    /\ averageRight f = VNum (of_Z avgR) /\ 0 <= avgR <= 255.
Proof.
  intros Hp Hn Hl Hr Hd Ht Hne Hfl Hfr Bd Bm Bl Br.
  unfold update. rewrite Hp, Hn, Hd, Ht, Hl, Hr. cbn. rewrite Hn. cbn.
  assert (Hnel : forall n reading, 2 <= fftSize n ->
            read_into (Uint8Array (frequencyBinCount n)) reading <> []).
  { intros n reading Hf E. apply (f_equal length) in E.
    rewrite length_read_into in E.
    pose proof (length_Uint8Array (frequencyBinCount n)) as Hu.
    unfold frequencyBinCount in *.
    assert (1 <= fftSize n / 2) by (apply Z.div_le_lower_bound; lia).
    cbn [length] in E. lia. }
  destruct (getAvg_bytes (read_into data (mix_frequency r))) as (vol & Ev & Hv).
  { intros E. apply (f_equal length) in E. rewrite length_read_into in E.
    by destruct data. }
  { by apply bytes_read_into. }
  destruct (getAvg_bytes (read_into (Uint8Array (frequencyBinCount nodeLeft))
                            (left_frequency r))) as (avgL & El & HL);
    [by apply Hnel | apply bytes_read_into; [apply bytes_Uint8Array | done] |].
  destruct (getAvg_bytes (read_into (Uint8Array (frequencyBinCount nodeRight))
                            (right_frequency r))) as (avgR & Er & HR);
    [by apply Hnel | apply bytes_read_into; [apply bytes_Uint8Array | done] |].
  rewrite Ev, El, Er. eexists _, _, vol, avgL, avgR.
  split; [reflexivity|]. cbn. auto 12.
Qed.

(** X18.  A tick of a playing analyser that has its analyser node but lacks
    a side node throws a TypeError (at
    [this.splitAnalyseNodeLeft.frequencyBinCount]) and dispatches nothing.
    The constructor leaves the analyser in that state on a context that has
    [createAnalyser] but no [createChannelSplitter]. *)
Theorem update_throws_without_splitter (this : SoundAnalyser) (s : rnd)
    (r : readings) :
  isPlaying this = true -> is_Some (analyserNode this) ->
  splitAnalyseNodeLeft this = None \/ splitAnalyseNodeRight this = None ->
  update rnd integerInRange this s r = inl TypeError.
Proof.
  intros Hp [node Hn] Hside. unfold update. rewrite Hp, Hn.
  destruct (_dataArray this), (_dataTimeArray this); try reflexivity.
  destruct Hside as [-> | ->]; [reflexivity|].
  by destruct (splitAnalyseNodeLeft this).
Qed.

(** X19.  An accepted [fastFourierTransform] other than the current
    [_bufferLength] sets [_bufferLength] and leaves both arrays as they are:
    after it the arrays no longer have [_bufferLength] entries. *)
Theorem setter_unfits_arrays (this : SoundAnalyser) (z : Z) :
  arrays_fit this -> 32 <= z <= 2048 -> Z.even z = true ->
  z <> _bufferLength this ->
  let this' := (set_fastFourierTransform this (VNum (of_Z z))).1 in
  _bufferLength this' = z
  /\ _dataArray this' = _dataArray this
  /\ _dataTimeArray this' = _dataTimeArray this
  /\ ~ arrays_fit this'.
Proof.
  intros (data & time & Ed & Et & Ld & Lt) Hz He Hne this'. subst this'.
  rewrite setter_on_integer.
  assert (E : (32 <=? z) && (z <=? 2048) && Z.even z = true).
  { rewrite He, andb_true_r. apply andb_true_intro.
    split; apply Z.leb_le; lia. }
  rewrite E.
  cbn. repeat split.
  intros (data' & time' & Ed' & _ & Ld' & _). cbn in *. simplify_eq; try lia.
Qed.

End FrameFacts.

Lemma update_notifies_in_order_witness :
  exists this' s' events,
    update nat lowest stereo_playing 0%nat tick = inr (this', s', events)
    /\ bmpSoundAnalyze this' = bmpSoundAnalyze stereo_playing
    /\ (events = []
        \/ exists f,
             events = Dispatch f
                      :: ((fun bmp => UpdateAnalyse bmp f)
                          <$> bmpSoundAnalyze stereo_playing)).
Proof.
  destruct (update nat lowest stereo_playing 0%nat tick)
    as [e|[[this' s'] events]] eqn:E; [vm_compute in E; discriminate|].
  exists this', s', events. split; [reflexivity|].
  destruct (update_notifies_in_order nat lowest _ _ _ _ _ _ E) as (Hb & Hev & _).
  by split.
Defined.

Lemma removed_consumer_not_notified_witness :
  NoDup (bmpSoundAnalyze stereo_playing)
  /\ exists this' s' events,
       update nat lowest (removeBitmapSoundAnalyse stereo_playing 7%nat) 0%nat tick
       = inr (this', s', events)
       /\ forall f, UpdateAnalyse 7%nat f ∉ events.
Proof.
  assert (Hnd : NoDup (bmpSoundAnalyze stereo_playing)).
  { apply (bool_decide_unpack _). vm_compute. reflexivity. }
  split; [exact Hnd|].
  destruct (update nat lowest (removeBitmapSoundAnalyse stereo_playing 7%nat)
              0%nat tick) as [e|[[this' s'] events]] eqn:E;
    [vm_compute in E; discriminate|].
  exists this', s', events. split; [reflexivity|].
  exact (removed_consumer_not_notified nat lowest _ _ _ _ _ _ _ Hnd E).
Defined.

Lemma update_analyser_frame_witness :
  exists this' f vol avgL avgR,
    update nat lowest stereo_playing 0%nat tick
    = inr (this', 0%nat, notify (bmpSoundAnalyze stereo_playing) f)
    /\ volume f = VNum (of_Z vol) /\ 0 <= vol <= 255
    /\ averageLeft f = VNum (of_Z avgL) /\ 0 <= avgL <= 255
    /\ averageRight f = VNum (of_Z avgR) /\ 0 <= avgR <= 255.
Proof.
  assert (Hz : bytes (Uint8Array 1024)) by (apply Forall_replicate; lia).
  assert (Hne : Uint8Array 1024 <> []) by (vm_compute; discriminate).
  destruct (update_analyser_frame nat lowest stereo_playing 0%nat tick
              (Node 2048 (-150) 10) (Node 2048 (-100) (-30))
              (Node 2048 (-100) (-30)) (Uint8Array 1024) (Uint8Array 1024))
    as (this' & f & vol & avgL & avgR & E & _ & _ & H);
    try reflexivity; try exact Hz; try exact Hne;
    try (cbn; lia); try (repeat constructor; lia).
  exists this', f, vol, avgL, avgR. by split.
Defined.

Lemma update_throws_without_splitter_witness :
  let this := with_isPlaying true (new_SoundAnalyser (Some (Context true false)) VUndef) in
  (isPlaying this = true /\ is_Some (analyserNode this)
   /\ splitAnalyseNodeLeft this = None)
  /\ update nat lowest this 0%nat tick = inl TypeError.
Proof.
  intros this.
  assert (H1 : isPlaying this = true) by reflexivity.
  assert (H2 : is_Some (analyserNode this)) by (by eexists).
  assert (H3 : splitAnalyseNodeLeft this = None) by reflexivity.
  split; [by repeat split|].
  exact (update_throws_without_splitter nat lowest this 0%nat tick H1 H2
           (or_introl H3)).
Defined.

Lemma setter_unfits_arrays_witness :
  let this := new_SoundAnalyser None VUndef in
  (arrays_fit this /\ 32 <= 32 <= 2048 /\ Z.even 32 = true
   /\ 32 <> _bufferLength this)
  /\ _bufferLength (set_fastFourierTransform this (VNum (of_Z 32))).1 = 32
  /\ ~ arrays_fit (set_fastFourierTransform this (VNum (of_Z 32))).1.
Proof.
  intros this.
  assert (H1 : arrays_fit this).
  { exists (Uint8Array 2048), (Uint8Array 2048).
    repeat split; vm_compute; reflexivity. }
  assert (H2 : 32 <= 32 <= 2048) by lia.
  assert (H3 : Z.even 32 = true) by reflexivity.
  assert (H4 : 32 <> _bufferLength this) by (vm_compute; discriminate).
  split; [by repeat split|].
  destruct (setter_unfits_arrays this 32 H1 H2 H3 H4) as (Hb & _ & _ & Hn).
  by split.
Defined.

(** ** The LocalStorage plugin *)

Import LocalStorage.

(** *** The storage *)

Lemma lookup_store_same (k v : string) (l : list (string * string)) :
  lookup_item k (store_item k v l) = Some v.
Proof.
  induction l as [|[k' v'] l IH]; simpl.
  - by rewrite decide_True.
  - destruct (decide (k' = k)); simpl.
    + by rewrite decide_True.
    + by rewrite decide_False.
Qed.

Lemma lookup_store_other (k k' v : string) (l : list (string * string)) :
  k' <> k -> lookup_item k' (store_item k v l) = lookup_item k' l.
Proof.
  intros Hne. induction l as [|[k0 v0] l IH]; simpl.
  - by rewrite decide_False.
  - destruct (decide (k0 = k)) as [->|]; simpl.
    + by rewrite !decide_False.
    + by rewrite IH.
Qed.

Lemma lookup_filter (keep : string -> bool) (k : string)
    (l : list (string * string)) :
  lookup_item k (filter (fun kv => keep kv.1 = true) l)
  = if keep k then lookup_item k l else None.
Proof.
  induction l as [|[k' v'] l IH]; simpl; [by destruct (keep k)|].
  rewrite filter_cons. simpl.
  destruct (decide (keep k' = true)) as [Hk|Hk]; simpl.
  - destruct (decide (k' = k)) as [->|]; [by rewrite Hk | done].
  - rewrite IH. destruct (decide (k' = k)) as [->|]; [|done].
    by destruct (keep k).
Qed.

Lemma lookup_remove (k k' : string) (l : list (string * string)) :
  lookup_item k' (filter (fun kv => kv.1 <> k) l)
  = if decide (k' = k) then None else lookup_item k' l.
Proof.
  induction l as [|[k0 v0] l IH]; simpl; [by destruct (decide (k' = k))|].
  rewrite filter_cons. simpl.
  destruct (decide (k0 <> k)) as [Hk|Hk]; simpl.
  - rewrite IH. destruct (decide (k0 = k')) as [->|]; [|done].
    by rewrite decide_False.
  - rewrite IH. apply dec_stable in Hk. subst k0.
    destruct (decide (k' = k)) as [->|]; [done|]. by rewrite decide_False.
Qed.

Lemma filter_absent_key (k : string) (l : list (string * string)) :
  k ∉ l.*1 -> filter (fun kv => kv.1 <> k) l = l.
Proof.
  induction l as [|[k0 v0] l IH]; [done|]. simpl. intros Hk.
  apply not_elem_of_cons in Hk as [Hne Hk].
  rewrite filter_cons_True by (simpl; congruence). by rewrite IH.
Qed.

(** *** Substrings *)

Lemma substring_prefix (p s : string) :
  String.substring 0 (String.length p) (p +:+ s) = p.
Proof.
  induction p as [|c p IH]; simpl.
  - by destruct s.
  - by rewrite IH.
Qed.

Lemma substring_skip (pre s : string) (n : nat) :
  String.substring (String.length pre) n (pre +:+ s) = String.substring 0 n s.
Proof. induction pre as [|c pre IH]; simpl; [done | exact IH]. Qed.

Lemma contains_infix (p pre post : string) :
  p <> "" -> contains p (pre +:+ p +:+ post) = true.
Proof.
  intros Hp. unfold contains. apply bool_decide_eq_true.
  destruct (String.index 0 p (pre +:+ p +:+ post)) eqn:E; [by eexists|].
  exfalso.
  apply (String.index_correct3 0 (String.length pre) p _ E Hp); [lia|].
  by rewrite substring_skip, substring_prefix.
Qed.

Lemma pattern_nonempty (i : string) : i +:+ "." <> "".
Proof. by destruct i. Qed.

(** *** The reset loop *)

Lemma reset_loop_spec (pattern : string) (l : list (string * string))
    (f : bool) (n : nat) :
  NoDup l.*1 -> (n <= length l)%nat ->
  reset_loop pattern n
    {| items := take n l
                ++ filter (fun kv => negb (contains pattern kv.1) = true)
                     (drop n l);
       full := f |}
  = inr {| items := filter (fun kv => negb (contains pattern kv.1) = true) l;
           full := f |}.
Proof.
  intros Hnd. induction n as [|i IH]; intros Hn.
  - by rewrite take_0, drop_0.
  - destruct (lookup_lt_is_Some_2 l i) as [[k v] Hkv]; [lia|].
    cbn [reset_loop]. unfold keys. cbn [items].
    rewrite list_lookup_fmap, lookup_app_l by (rewrite length_take; lia).
    rewrite lookup_take_lt by lia. rewrite Hkv. cbn [fmap option_fmap option_map fst].
    rewrite <- IH by lia. f_equal.
    rewrite (take_S_r _ _ _ Hkv), (drop_S _ _ _ Hkv).
    assert (Hsplit : l = take i l ++ (k, v) :: drop (S i) l)
      by (rewrite <- (drop_S _ _ _ Hkv); symmetry; apply take_drop).
    rewrite Hsplit, fmap_app, fmap_cons in Hnd.
    apply NoDup_app in Hnd as (_ & Hdis & Hnd).
    apply NoDup_cons in Hnd as [Hk2 _]. cbn [fst] in *.
    assert (Hk1 : k ∉ (take i l).*1)
      by (intros Hin; apply (Hdis _ Hin); apply list_elem_of_here).
    rewrite filter_cons. cbn [fst].
    destruct (contains pattern k) eqn:Ec; cbn [negb].
    + rewrite decide_False by done. unfold removeItem. cbn [items full].
      f_equal. rewrite <- app_assoc, !filter_app.
      rewrite (filter_absent_key k (take i l)) by done.
      rewrite filter_cons_False by (simpl; auto). rewrite filter_nil. simpl.
      f_equal. apply filter_absent_key.
      intros Hin. apply Hk2. apply list_elem_of_fmap in Hin as ([k0 v0] & -> & Hin).
      apply list_elem_of_filter in Hin as [_ Hin].
      apply list_elem_of_fmap. by exists (k0, v0).
    + rewrite decide_True by done. by rewrite <- app_assoc.
Qed.

Section JsonFacts.

Variable V : Type.
Variable stringify : V -> json_text.
Variable parse : string -> option V.

(** X20.  On a supported plugin and a storage that takes the item, [set]
    followed by [get] of the same key returns the value, provided
    [JSON.parse] inverts [JSON.stringify] on it; [has] is then [true], and
    no other key of the storage is touched. *)
Theorem storage_set_then_get (this : Plugin) (st : Storage) (key : string)
    (v : V) (t : string) :
  supported this = true -> full st = false ->
  stringify v = Text t -> parse t = Some v ->
  exists st',
    set V stringify this (Some st) key v = Done ReturnedUndefined (Some st')
    /\ get V parse this (Some st') key = Done (Decoded v) (Some st')
    /\ has this (Some st') key = Done true (Some st')
    /\ forall k, k <> full_key this key -> getItem st' k = getItem st k.
Proof.
  intros Hs Hf Ht Hp. unfold set. rewrite Hs, Ht, Hf. cbn [negb].
  eexists. split; [reflexivity|].
  unfold get, has, getItem, setItem. cbn [items].
  rewrite lookup_store_same, Hp. split; [done|]. split; [done|].
  intros k Hk. by apply lookup_store_other.
Qed.

(** X21.  [set(key, undefined)] stores the text ['undefined']
    ([JSON.stringify] returns [undefined], which [setItem] converts to a
    string); [JSON.parse] throws on it, so [get] returns the string
    ['undefined'], not [undefined] and not the default value, and [has] is
    [true]. *)
Theorem storage_set_undefined (this : Plugin) (st : Storage) (key : string)
    (v : V) :
  supported this = true -> full st = false ->
  stringify v = Undefined -> parse "undefined" = None ->
  exists st',
    set V stringify this (Some st) key v = Done ReturnedUndefined (Some st')
    /\ get V parse this (Some st') key = Done (Raw "undefined") (Some st')
    /\ has this (Some st') key = Done true (Some st').
Proof.
  intros Hs Hf Ht Hp. unfold set. rewrite Hs, Ht, Hf. cbn [negb].
  eexists. split; [reflexivity|].
  unfold get, has, getItem, setItem. cbn [items].
  by rewrite lookup_store_same, Hp.
Qed.

(** X22.  After [remove(key)], [has(key)] is [false] and [get(key, d)]
    returns [d]; no other key of the storage is touched. *)
Theorem storage_remove (this : Plugin) (st : Storage) (key : string) :
  exists st',
    remove this (Some st) key = Done tt (Some st')
    /\ has this (Some st') key = Done false (Some st')
    /\ get V parse this (Some st') key = Done DefaultValue (Some st')
    /\ forall k, k <> full_key this key -> getItem st' k = getItem st k.
Proof.
  unfold remove. eexists. split; [reflexivity|].
  unfold has, get, getItem, removeItem. cbn [items].
  rewrite lookup_remove, decide_True by done.
  split; [done|]. split; [done|].
  intros k Hk. by rewrite lookup_remove, decide_False.
Qed.

(** X23.  A plugin constructed while [setItem] throws is unsupported and
    leaves the storage alone; its [set] returns [false] and writes nothing
    ever after, whatever the storage has become. *)
Theorem storage_unsupported_for_good (st : Storage) (e : env) (key : string)
    (v : V) :
  full st = true ->
  new_Plugin (Some st) = ({| id := ""; supported := false |}, Some st)
  /\ set V stringify (new_Plugin (Some st)).1 e key v = Done ReturnedFalse e.
Proof.
  intros Hf. unfold new_Plugin, isSupported. rewrite Hf. done.
Qed.

End JsonFacts.

Lemma storage_set_then_get_witness :
  (supported saves = true /\ full shelf = false
   /\ stringify_flag (Some true) = Text "true"
   /\ parse_flag "true" = Some (Some true))
  /\ exists st',
       set (option bool) stringify_flag saves (Some shelf) "sound" (Some true)
       = Done ReturnedUndefined (Some st')
       /\ get (option bool) parse_flag saves (Some st') "sound"
          = Done (Decoded (Some true)) (Some st').
Proof.
  split; [by repeat split|].
  destruct (storage_set_then_get (option bool) stringify_flag parse_flag
              saves shelf "sound" (Some true) "true"
              eq_refl eq_refl eq_refl eq_refl) as (st' & Hs & Hg & _).
  by exists st'.
Defined.

Lemma storage_set_undefined_witness :
  (supported saves = true /\ full shelf = false
   /\ stringify_flag None = Undefined /\ parse_flag "undefined" = None)
  /\ exists st',
       set (option bool) stringify_flag saves (Some shelf) "sound" None
       = Done ReturnedUndefined (Some st')
       /\ get (option bool) parse_flag saves (Some st') "sound"
          = Done (Raw "undefined") (Some st').
Proof.
  split; [by repeat split|].
  destruct (storage_set_undefined (option bool) stringify_flag parse_flag
              saves shelf "sound" None
              eq_refl eq_refl eq_refl eq_refl) as (st' & Hs & Hg & _).
  by exists st'.
Defined.

Lemma storage_unsupported_for_good_witness :
  full locked = true
  /\ set (option bool) stringify_flag (new_Plugin (Some locked)).1
       (Some shelf) "sound" (Some true)
     = Done ReturnedFalse (Some shelf).
Proof.
  split; [reflexivity|].
  exact (proj2 (storage_unsupported_for_good (option bool) stringify_flag
                  locked (Some shelf) "sound" (Some true) eq_refl)).
Defined.

(** X24.  [reset] returns and deletes exactly the items whose key contains
    [id + '.'] anywhere, not only as a prefix: items of other scripts whose
    keys contain that text go too; all other items stay, in their order. *)
Theorem storage_reset (this : Plugin) (st : Storage) :
  NoDup (keys st) ->
  exists st',
    reset this (Some st) = Done tt (Some st')
    /\ items st'
       = filter (fun kv => negb (contains (id this +:+ ".") kv.1) = true)
           (items st)
    /\ (forall pre post,
          getItem st' (pre +:+ (id this +:+ ".") +:+ post) = None)
    /\ (forall k, contains (id this +:+ ".") k = false ->
          getItem st' k = getItem st k).
Proof.
  intros Hnd. unfold reset.
  pose proof (reset_loop_spec (id this +:+ ".") (items st) (full st)
                (length (items st)) Hnd ltac:(lia)) as H.
  rewrite firstn_all, drop_all, app_nil_r in H.
  unfold keys. rewrite length_fmap.
  replace {| items := items st; full := full st |} with st in H
    by (by destruct st).
  rewrite H. eexists. split; [reflexivity|]. cbn [items].
  split; [done|]. unfold getItem. cbn [items]. split.
  - intros pre post.
    rewrite (lookup_filter (fun k => negb (contains (id this +:+ ".") k))).
    by rewrite contains_infix by apply pattern_nonempty.
  - intros k Hk.
    rewrite (lookup_filter (fun k => negb (contains (id this +:+ ".") k))).
    by rewrite Hk.
Qed.

(** X25.  Constructing the plugin on a storage that takes items deletes
    the item with key ['localStorage'] if there is one, and touches no other
    key; the plugin is then supported. *)
Theorem storage_constructor_probe (st : Storage) :
  full st = false ->
  exists st',
    new_Plugin (Some st) = ({| id := ""; supported := true |}, Some st')
    /\ getItem st' "localStorage" = None
    /\ forall k, k <> "localStorage" -> getItem st' k = getItem st k.
Proof.
  intros Hf. unfold new_Plugin, isSupported. rewrite Hf.
  eexists. split; [reflexivity|].
  unfold getItem, removeItem, setItem. cbn [items]. split.
  - by rewrite lookup_remove, decide_True.
  - intros k Hk. rewrite lookup_remove, decide_False by done.
    by apply lookup_store_other.
Qed.

Lemma store_item_keys (k v : string) (l : list (string * string)) :
  (store_item k v l).*1 = if decide (k ∈ l.*1) then l.*1 else l.*1 ++ [k].
Proof.
  induction l as [|[k0 v0] l IH]; cbn [store_item fmap list_fmap fst].
  - by rewrite decide_False by apply not_elem_of_nil.
  - destruct (decide (k0 = k)) as [->|Hne]; cbn [store_item fmap list_fmap fst].
    + by rewrite decide_True by apply list_elem_of_here.
    + rewrite IH. destruct (decide (k ∈ l.*1)) as [Hin|Hnin].
      * by rewrite decide_True by (by apply list_elem_of_further).
      * rewrite decide_False; [done|].
        intros Hin. apply elem_of_cons in Hin as [?|?]; congruence.
Qed.

(** [setItem] and [removeItem] keep every key once. *)
Lemma storage_keys_stay_distinct (st : Storage) (k v : string) :
  NoDup (keys st) ->
  NoDup (keys (setItem st k v)) /\ NoDup (keys (removeItem st k)).
Proof.
  unfold keys, setItem, removeItem. cbn [items]. intros Hnd. split.
  - rewrite store_item_keys. destruct (decide (k ∈ (items st).*1)); [done|].
    apply NoDup_app. split; [done|]. split; [|apply NoDup_singleton].
    intros x Hx Hx'. apply list_elem_of_singleton in Hx'. by subst.
  - generalize dependent Hnd. generalize (items st). intros l.
    induction l as [|[k0 v0] l IH]; [done|]. simpl. intros Hnd.
    apply NoDup_cons in Hnd as [Hk0 Hnd]. rewrite filter_cons.
    destruct (decide ((k0, v0).1 <> k)); [|by apply IH].
    simpl. apply NoDup_cons. split; [|by apply IH].
    intros Hin. apply Hk0. apply list_elem_of_fmap in Hin as ([k1 v1] & -> & Hin).
    apply list_elem_of_filter in Hin as [_ Hin].
    apply list_elem_of_fmap. by exists (k1, v1).
Qed.

Lemma storage_reset_witness :
  NoDup (keys shelf)
  /\ exists st',
       reset saves (Some shelf) = Done tt (Some st')
       /\ items st' = [("localStorage", "old"); ("gamer", "true")].
Proof.
  assert (Hnd : NoDup (keys shelf)).
  { apply (bool_decide_unpack _). vm_compute. reflexivity. }
  split; [exact Hnd|].
  destruct (storage_reset saves shelf Hnd) as (st' & Hr & Hi & _).
  exists st'. split; [exact Hr|]. rewrite Hi. vm_compute. reflexivity.
Defined.

Lemma storage_constructor_probe_witness :
  full shelf = false
  /\ exists st',
       new_Plugin (Some shelf) = ({| id := ""; supported := true |}, Some st')
       /\ getItem shelf "localStorage" = Some "old"
       /\ getItem st' "localStorage" = None.
Proof.
  split; [reflexivity|].
  destruct (storage_constructor_probe shelf eq_refl) as (st' & Hn & Hg & _).
  exists st'. by repeat split.
Defined.

(** ** The settings of the KineticScrolling plugin *)

Import KineticScrolling.

Lemma configure_property_dom (settings : gmap string value)
    (property : string * value) :
  dom (configure_property settings property) = dom settings.
Proof.
  unfold configure_property. case_bool_decide as H; [|done].
  by apply dom_insert_lookup_L.
Qed.

Lemma configure_properties_dom (properties : list (string * value)) :
  forall settings, dom (foldl configure_property settings properties) = dom settings.
Proof.
  induction properties as [|p ps IH]; intros settings; [done|].
  cbn [foldl]. by rewrite IH, configure_property_dom.
Qed.

Lemma configure_untouched (k : string) (properties : list (string * value)) :
  k ∉ properties.*1 ->
  forall settings,
    foldl configure_property settings properties !! k = settings !! k.
Proof.
  induction properties as [|[k0 v0] ps IH]; intros Hk settings; [done|].
  cbn [fmap list_fmap fst] in Hk. apply not_elem_of_cons in Hk as [Hne Hk].
  cbn [foldl]. rewrite IH by done. unfold configure_property. cbn [fst snd].
  case_bool_decide; [|done]. by rewrite lookup_insert_ne.
Qed.

Lemma configure_assigned (k : string) (v : value)
    (properties : list (string * value)) :
  NoDup properties.*1 -> (k, v) ∈ properties ->
  forall settings,
    is_Some (settings !! k) ->
    foldl configure_property settings properties !! k = Some v.
Proof.
  induction properties as [|[k0 v0] ps IH]; intros Hnd Hin settings Hsome;
    [by apply elem_of_nil in Hin|].
  cbn [fmap list_fmap fst] in Hnd. apply NoDup_cons in Hnd as [Hk0 Hnd].
  cbn [foldl]. apply elem_of_cons in Hin as [[= <- <-]|Hin].
  - rewrite configure_untouched by done. unfold configure_property.
    cbn [fst snd]. rewrite bool_decide_eq_true_2 by done.
    apply lookup_insert_eq.
  - apply IH; [done..|].
    apply elem_of_dom. rewrite configure_property_dom. by apply elem_of_dom.
Qed.

Lemma configure_dom (settings : gmap string value)
    (options : option (list (string * value))) :
  dom (configure settings options) = dom settings.
Proof. destruct options as [ps|]; [apply configure_properties_dom | done]. Qed.

(** X26.  [configure] never adds or removes a setting: the keys of
    [settings] are the same before and after, properties of [options] that
    are no setting are ignored, a setting named once in [options] takes the
    value given there, and a setting [options] does not name keeps its
    value; so the settings always have the seven keys the constructor
    gave them. *)
Theorem configure_known_keys_only (settings : gmap string value)
    (options : option (list (string * value))) :
  dom (configure settings options) = dom settings
  /\ (forall k, settings !! k = None -> configure settings options !! k = None)
  /\ (forall properties k v,
        options = Some properties -> NoDup properties.*1 ->
        (k, v) ∈ properties -> is_Some (settings !! k) ->
        configure settings options !! k = Some v)
  /\ (forall properties k,
        options = Some properties -> k ∉ properties.*1 ->
        configure settings options !! k = settings !! k)
  /\ (forall calls : list (option (list (string * value))),
        dom (foldl configure default_settings calls) = dom default_settings).
Proof.
  assert (Hdom : dom (configure settings options) = dom settings)
    by apply configure_dom.
  split; [done|]. split; [|split; [|split]].
  - intros k Hk. apply not_elem_of_dom. rewrite Hdom. by apply not_elem_of_dom.
  - intros ps k v -> Hnd Hin Hsome. by apply configure_assigned.
  - intros ps k -> Hk. by apply configure_untouched.
  - intros calls. generalize default_settings.
    induction calls as [|c calls IH]; intros st; [done|].
    cbn [foldl]. by rewrite IH, configure_dom.
Qed.
